(** * Chat session controller of the college assistant widget

    A shallow embedding of the React application: the [useLocalStorage] and
    [useChatAPI] hooks, the [App] component's event handlers and the part of
    [ChatDialog] that selects a role and triggers a send.

    React state is a record that the handlers thread through a small
    state-and-exception monad; the browser (local storage, clock, network
    reachability, toasts, console, outbound requests) is part of the same
    record.  An [async] handler is split at the [await fetch(...)]: a
    [_begin] part runs up to the request and a [_settle] part runs once
    the request has settled, the body of the response included; the
    course in which the body never completes is treated apart. *)

From stdpp Require Import base option list strings gmap.
From Stdlib Require Import NArith QArith Ascii String DecimalString.

Local Open Scope N_scope.

(** ** JavaScript strings *)

(** A string is its sequence of UTF-16 code units. *)
Definition jsstring : Type := list N.

(** An ASCII literal of the source as a [jsstring]. *)
Definition str (s : string) : jsstring :=
  List.map N_of_ascii (list_ascii_of_string s).

(** ECMAScript WhiteSpace and LineTerminator code points, the ones that
    [String.prototype.trim] strips. *)
Definition isWhiteSpace (c : N) : bool :=
  (c =? 0x09) || (c =? 0x0A) || (c =? 0x0B) || (c =? 0x0C) || (c =? 0x0D)
  || (c =? 0x20) || (c =? 0xA0) || (c =? 0x1680)
  || ((0x2000 <=? c) && (c <=? 0x200A))
  || (c =? 0x2028) || (c =? 0x2029) || (c =? 0x202F) || (c =? 0x205F)
  || (c =? 0x3000) || (c =? 0xFEFF).

Fixpoint trimStart (s : jsstring) : jsstring :=
  match s with
  | [] => []
  | c :: rest => if isWhiteSpace c then trimStart rest else s
  end.

Definition trimEnd (s : jsstring) : jsstring := rev (trimStart (rev s)).

Definition trim (s : jsstring) : jsstring := trimEnd (trimStart s).

(** Truthiness of a string: every string but the empty one. *)
Definition truthy (s : jsstring) : bool :=
  match s with [] => false | _ :: _ => true end.

(** [a || b] on strings. *)
Definition or_else (a b : jsstring) : jsstring := if truthy a then a else b.

(** Truthiness of a string-or-null/undefined value. *)
Definition truthy_opt (o : option jsstring) : bool :=
  match o with Some s => truthy s | None => false end.

(** [String(n)] for a non-negative integer. *)
Definition decimal (n : N) : jsstring :=
  str (NilZero.string_of_uint (N.to_uint n)).

(** [s.charAt(0).toUpperCase() + s.slice(1)], on ASCII letters. *)
Definition capitalize (s : jsstring) : jsstring :=
  match s with
  | [] => []
  | c :: rest => (if (97 <=? c) && (c <=? 122) then c - 32 else c) :: rest
  end.

(** ** Errors *)

Record JsError := mkError { name : jsstring; message : jsstring }.

(** [new Error(msg)] *)
Definition Error (msg : jsstring) : JsError :=
  {| name := str "Error"; message := msg |}.

(** ** Data model *)

Inductive Sender := user | bot.

Record Message := mkMessage {
  text : jsstring;
  sender : Sender;
  timestamp : N;                  (* the instant [new Date()] denotes, in ms *)
  role : option jsstring;         (* only on bot replies *)
  confidence : option Q;          (* only on bot replies *)
  isError : bool
}.

Inductive Theme := light | dark.

Record Settings := mkSettings {
  notifications : bool;
  soundEnabled : bool;
  theme : Theme
}.

Inductive ConnectionStatus := connected | connecting | error.

(** The text held under a local-storage key, represented by the value whose
    [JSON.stringify] it is.  [JSON.stringify] of a function is [undefined],
    which [setItem] stores as the text [undefined]. *)
Inductive StoredText :=
  | JsonMessages (ms : list Message)
  | JsonRole (r : option jsstring)
  | JsonSettings (s : Settings)
  | TextUndefined.

Record RequestBody := mkRequestBody {
  req_message : jsstring;
  req_role : option jsstring;
  req_timestamp : N
}.

Inductive ToastKind := info | success | toast_error.

(** What the application does to its surroundings, in order. *)
Inductive Effect :=
  | ConsoleWarn (msg : jsstring)
  | ConsoleError (msg : jsstring) (e : JsError)
  | Toast (kind : ToastKind) (msg : jsstring) (autoClose : option N)
  | SetItem (key : string) (item : StoredText)
  | Fetch (body : RequestBody)
  | AudioPlay.

Record World := mkWorld {
  (* state of App and of its hooks *)
  isOpen : bool;
  messages : list Message;
  inputValue : jsstring;
  userRole : option jsstring;
  chatSettings : Settings;
  isLoading : bool;
  connectionStatus : ConnectionStatus;
  (* the browser *)
  localStorage : gmap string StoredText;
  storageAccepts : string -> StoredText -> bool;   (* does [setItem] succeed *)
  onLine : bool;                                   (* [navigator.onLine] *)
  clock : N;                                       (* [Date.now()] *)
  effects : list Effect
}.

(** ** Handlers as state-and-exception computations *)

Inductive Completion (A : Type) :=
  | Normal (a : A)
  | Thrown (e : JsError).
Arguments Normal {A} a.
Arguments Thrown {A} e.

Definition Js (A : Type) : Type := World -> Completion A * World.

#[global] Instance Js_ret : MRet Js := fun A a w => (Normal a, w).

#[global] Instance Js_bind : MBind Js := fun A B f m w =>
  match m w with
  | (Normal a, w') => f a w'
  | (Thrown e, w') => (Thrown e, w')
  end.

Definition throw {A} (e : JsError) : Js A := fun w => (Thrown e, w).

(** [try { body } catch (e) { handler e }] *)
Definition try_catch {A} (body : Js A) (handler : JsError -> Js A) : Js A :=
  fun w =>
    match body w with
    | (Normal a, w') => (Normal a, w')
    | (Thrown e, w') => handler e w'
    end.

(** [try { body } finally { fin }] *)
Definition try_finally {A} (body : Js A) (fin : Js unit) : Js A :=
  fun w =>
    match body w with
    | (c, w') =>
        match fin w' with
        | (Normal _, w'') => (c, w'')
        | (Thrown e, w'') => (Thrown e, w'')
        end
    end.

Definition read {A} (f : World -> A) : Js A := fun w => (Normal (f w), w).

Definition modify (f : World -> World) : Js unit := fun w => (Normal tt, f w).

Definition emit (e : Effect) : Js unit :=
  modify (fun w =>
    mkWorld (isOpen w) (messages w) (inputValue w) (userRole w)
      (chatSettings w) (isLoading w) (connectionStatus w) (localStorage w)
      (storageAccepts w) (onLine w) (clock w) (effects w ++ [e])).

(** The world a computation leaves, and its completion. *)
Definition exec {A} (m : Js A) (w : World) : World := snd (m w).
Definition completion {A} (m : Js A) (w : World) : Completion A := fst (m w).

(** ** React state setters

    A setter takes the next value or a function of the previous one. *)

Inductive SetStateAction (T : Type) :=
  | Value (v : T)
  | Updater (f : T -> T).
Arguments Value {T} v.
Arguments Updater {T} f.

Definition next_state {T} (a : SetStateAction T) (prev : T) : T :=
  match a with
  | Value v => v
  | Updater f => f prev
  end.

Definition setIsOpen (a : SetStateAction bool) : Js unit :=
  modify (fun w =>
    mkWorld (next_state a (isOpen w)) (messages w) (inputValue w) (userRole w)
      (chatSettings w) (isLoading w) (connectionStatus w) (localStorage w)
      (storageAccepts w) (onLine w) (clock w) (effects w)).

Definition setInputValue (v : jsstring) : Js unit :=
  modify (fun w =>
    mkWorld (isOpen w) (messages w) v (userRole w)
      (chatSettings w) (isLoading w) (connectionStatus w) (localStorage w)
      (storageAccepts w) (onLine w) (clock w) (effects w)).

Definition setIsLoading (v : bool) : Js unit :=
  modify (fun w =>
    mkWorld (isOpen w) (messages w) (inputValue w) (userRole w)
      (chatSettings w) v (connectionStatus w) (localStorage w)
      (storageAccepts w) (onLine w) (clock w) (effects w)).

Definition setConnectionStatus (v : ConnectionStatus) : Js unit :=
  modify (fun w =>
    mkWorld (isOpen w) (messages w) (inputValue w) (userRole w)
      (chatSettings w) (isLoading w) v (localStorage w)
      (storageAccepts w) (onLine w) (clock w) (effects w)).

(** ** Persistent store: [useLocalStorage]

    The hook is used three times; a [Slot] names one use, with the type of
    the value it holds. *)

Inductive Slot : Type -> Type :=
  | ChatMessages : Slot (list Message)
  | UserRole : Slot (option jsstring)
  | ChatSettings : Slot Settings.

Definition key {T} (s : Slot T) : string :=
  match s with
  | ChatMessages => "chatMessages"
  | UserRole => "userRole"
  | ChatSettings => "chatSettings"
  end.

(** The [value] of the hook's [useState]. *)
Definition value {T} (s : Slot T) : World -> T :=
  match s in Slot T return World -> T with
  | ChatMessages => messages
  | UserRole => userRole
  | ChatSettings => chatSettings
  end.

(** The hook's inner [setValue]. *)
Definition setValue {T} (s : Slot T) : SetStateAction T -> Js unit :=
  match s in Slot T return SetStateAction T -> Js unit with
  | ChatMessages => fun a => modify (fun w =>
      mkWorld (isOpen w) (next_state a (messages w)) (inputValue w)
        (userRole w) (chatSettings w) (isLoading w) (connectionStatus w)
        (localStorage w) (storageAccepts w) (onLine w) (clock w) (effects w))
  | UserRole => fun a => modify (fun w =>
      mkWorld (isOpen w) (messages w) (inputValue w)
        (next_state a (userRole w)) (chatSettings w) (isLoading w)
        (connectionStatus w) (localStorage w) (storageAccepts w) (onLine w)
        (clock w) (effects w))
  | ChatSettings => fun a => modify (fun w =>
      mkWorld (isOpen w) (messages w) (inputValue w) (userRole w)
        (next_state a (chatSettings w)) (isLoading w) (connectionStatus w)
        (localStorage w) (storageAccepts w) (onLine w) (clock w) (effects w))
  end.

(** [JSON.stringify(newValue)], as [setItem] stores it. *)
Definition stringify {T} (s : Slot T) (newValue : SetStateAction T)
  : StoredText :=
  match newValue with
  | Updater _ => TextUndefined
  | Value v =>
      match s in Slot T return T -> StoredText with
      | ChatMessages => JsonMessages
      | UserRole => JsonRole
      | ChatSettings => JsonSettings
      end v
  end.

Definition QuotaExceededError : JsError :=
  {| name := str "QuotaExceededError";
     message := str "The quota has been exceeded." |}.

(** [window.localStorage.setItem(k, item)]: stores the item, or throws when
    the browser refuses the write. *)
Definition setItem (k : string) (item : StoredText) : Js unit :=
  emit (SetItem k item);;
  accepted ← read (fun w => storageAccepts w k item);
  if accepted : bool
  then modify (fun w =>
    mkWorld (isOpen w) (messages w) (inputValue w) (userRole w)
      (chatSettings w) (isLoading w) (connectionStatus w)
      (<[k := item]> (localStorage w))
      (storageAccepts w) (onLine w) (clock w) (effects w))
  else throw QuotaExceededError.

Definition console_warn (msg : jsstring) : Js unit := emit (ConsoleWarn msg).

(** The setter the hook returns. *)
Definition setStoredValue {T} (s : Slot T) (newValue : SetStateAction T)
  : Js unit :=
  try_catch
    (setValue s newValue;;
     setItem (key s) (stringify s newValue))
    (fun _ =>
       console_warn
         (str "Error setting localStorage key " ++ [34] ++ str (key s)
            ++ [34] ++ str ":")).

Definition setMessages := setStoredValue ChatMessages.
Definition setUserRole := setStoredValue UserRole.
Definition setChatSettings := setStoredValue ChatSettings.

(** ** The remote service, as [fetch] sees it *)

Fixpoint eqb_str (a b : jsstring) : bool :=
  match a, b with
  | [], [] => true
  | x :: a', y :: b' => (x =? y) && eqb_str a' b'
  | _, _ => false
  end.

(** [a === b] on string-or-null values. *)
Definition strict_eqb (a b : option jsstring) : bool :=
  match a, b with
  | None, None => true
  | Some x, Some y => eqb_str x y
  | _, _ => false
  end.

(** The JSON document of a reply. *)
Record Payload := mkPayload {
  data_response : jsstring;
  data_detected_role : option jsstring;
  data_confidence : option Q
}.

(** The body of a response, once the wait for it has ended.  A body that
    never completes is not a [Body]: that course of a request is a
    [Course], further down. *)
Inductive Body :=
  | JsonBody (data : Payload)
  | BadBody (why : jsstring).          (* [response.json()] rejects *)

Record Response := mkResponse {
  status : N;
  statusText : jsstring;
  body : Body
}.

(** [response.ok]: a status in the range 200-299. *)
Definition ok (r : Response) : bool := (200 <=? status r) && (status r <=? 299).

Inductive Remote :=
  | NeverResponds
  | Responds (after : N) (r : Response)     (* headers arrive after so many ms *)
  | Unreachable (after : N) (why : jsstring). (* the transport fails *)

Definition AbortError : JsError :=
  {| name := str "AbortError"; message := str "The operation was aborted." |}.
Definition TypeError (msg : jsstring) : JsError :=
  {| name := str "TypeError"; message := msg |}.
Definition SyntaxError (msg : jsstring) : JsError :=
  {| name := str "SyntaxError"; message := msg |}.

Inductive FetchOutcome :=
  | Fulfilled (r : Response)
  | Rejected (e : JsError).

(** The deadline armed by [setTimeout(() => controller.abort(), 30000)]. *)
Definition timeout_ms : N := 30000.

(** [fetch(url, {..., signal: controller.signal})] with the deadline armed:
    after how many milliseconds the promise settles, and how.  A request
    still pending when the timer fires is aborted. *)
Definition fetch_with_deadline (remote : Remote) : N * FetchOutcome :=
  match remote with
  | NeverResponds => (timeout_ms, Rejected AbortError)
  | Responds after r =>
      if after <? timeout_ms then (after, Fulfilled r)
      else (timeout_ms, Rejected AbortError)
  | Unreachable after why =>
      if after <? timeout_ms then (after, Rejected (TypeError why))
      else (timeout_ms, Rejected AbortError)
  end.

(** Time passing while a handler is suspended. *)
Definition elapse (ms : N) (w : World) : World :=
  mkWorld (isOpen w) (messages w) (inputValue w) (userRole w)
    (chatSettings w) (isLoading w) (connectionStatus w) (localStorage w)
    (storageAccepts w) (onLine w) (clock w + ms) (effects w).

(** ** Assistant client: [useChatAPI] *)

Record Reply := mkReply {
  reply_text : jsstring;
  reply_role : option jsstring;
  reply_confidence : option Q;
  reply_timestamp : N
}.

(** [data.confidence || null] *)
Definition confidence_or_null (c : option Q) : option Q :=
  match c with
  | Some q => if Qeq_bool q 0 then None else Some q
  | None => None
  end.

(** [sendMessage], up to the [await fetch(...)]. *)
Definition sendMessage_begin (message : jsstring) (role : option jsstring)
  : Js unit :=
  setIsLoading true;;
  setConnectionStatus connecting;;
  now ← read clock;
  emit (Fetch {| req_message := trim message;
                 req_role := role;
                 req_timestamp := now |}).

(** [sendMessage], from the moment the [fetch] promise settles. *)
Definition sendMessage_settle (outcome : FetchOutcome) : Js Reply :=
  try_finally
    (try_catch
       (response ← match outcome with
                   | Fulfilled r => mret r
                   | Rejected e => throw e
                   end;
        (if ok response then mret tt
         else throw (Error (str "Server error: " ++ decimal (status response)
                              ++ str " " ++ statusText response)));;
        data ← match body response with
               | JsonBody d => mret d
               | BadBody why => throw (SyntaxError why)
               end;
        setConnectionStatus connected;;
        now ← read clock;
        mret {| reply_text := data_response data;
                reply_role := data_detected_role data;
                reply_confidence := confidence_or_null (data_confidence data);
                reply_timestamp := now |})
       (fun err =>
          setConnectionStatus error;;
          if eqb_str (name err) (str "AbortError")
          then throw (Error (str "Request timed out. Please try again."))
          else
            online ← read onLine;
            if negb online
            then throw (Error
                   (str "No internet connection. Please check your network."))
            else throw (Error
                   (or_else (message err)
                      (str "Failed to connect to server. Please try again.")))))
    (setIsLoading false).

(** ** Session controller: the handlers of [App] *)

Definition toast (kind : ToastKind) (msg : jsstring) (autoClose : option N)
  : Js unit :=
  emit (Toast kind msg autoClose).

(** [playNotificationSound], with the [chatSettings.soundEnabled] it closed
    over. *)
Definition playNotificationSound (sound : bool) : Js unit :=
  if sound then emit AudioPlay else mret tt.

Definition welcomeText : jsstring :=
  [0xD83D; 0xDC4B] ++
  str " Welcome to Modern College Pune! I'm here to help you with admissions, courses, and general information. How can I assist you today?".

Definition welcomeMessage (now : N) : Message :=
  {| text := welcomeText; sender := bot; timestamp := now;
     role := None; confidence := None; isError := false |}.

Definition toggleChatDialog : Js unit :=
  open ← read isOpen;
  msgs ← read messages;
  setIsOpen (Updater negb);;
  if negb open
  then
    if (List.length msgs =? 0)%nat
    then now ← read clock; setMessages (Value [welcomeMessage now])
    else mret tt
  else mret tt.

Definition handleInputChange (v : jsstring) : Js unit := setInputValue v.

(** What [handleSendMessage] closed over and still needs once its exchange
    has settled. *)
Record Pending := mkPending {
  messageToSend : jsstring;
  sent_userRole : option jsstring;
  sent_soundEnabled : bool
}.

Definition userMessage (txt : jsstring) (now : N) : Message :=
  {| text := txt; sender := user; timestamp := now;
     role := None; confidence := None; isError := false |}.

Definition botMessage (botResponse : Reply) : Message :=
  {| text := reply_text botResponse; sender := bot;
     timestamp := reply_timestamp botResponse;
     role := reply_role botResponse;
     confidence := reply_confidence botResponse; isError := false |}.

Definition errorMessage (err : JsError) (now : N) : Message :=
  {| text := or_else (message err)
       (str "Sorry, I encountered an error. Please try again later.");
     sender := bot; timestamp := now;
     role := None; confidence := None; isError := true |}.

(** [handleSendMessage(customMessage)], up to the [await]: [None] when it
    returns at the guard, the pending exchange otherwise.  [customMessage]
    is [None] for [undefined]. *)
Definition handleSendMessage_begin (customMessage : option jsstring)
  : Js (option Pending) :=
  typed ← read inputValue;
  currentRole ← read userRole;
  settings ← read chatSettings;
  let messageToSend :=
    match customMessage with Some m => m | None => typed end in
  if negb (truthy (trim messageToSend)) then mret None
  else
    now ← read clock;
    setMessages
      (Updater (fun prevMessages =>
                  prevMessages ++ [userMessage messageToSend now]));;
    setInputValue [];;
    sendMessage_begin messageToSend currentRole;;
    mret (Some {| messageToSend := messageToSend;
                  sent_userRole := currentRole;
                  sent_soundEnabled := soundEnabled settings |}).

(** [handleSendMessage], from the moment its exchange settles. *)
Definition handleSendMessage_settle (p : Pending) (outcome : FetchOutcome)
  : Js unit :=
  try_catch
    (botResponse ← sendMessage_settle outcome;
     setMessages
       (Updater (fun prevMessages => prevMessages ++ [botMessage botResponse]));;
     playNotificationSound (sent_soundEnabled p);;
     if truthy_opt (reply_role botResponse)
        && negb (strict_eqb (reply_role botResponse) (sent_userRole p))
     then toast info
            (str "Detected context: "
               ++ default [] (reply_role botResponse))
            (Some 3000)
     else mret tt)
    (fun err =>
       emit (ConsoleError (str "Error sending message:") err);;
       now ← read clock;
       setMessages
         (Updater (fun prevMessages => prevMessages ++ [errorMessage err now]));;
       toast toast_error (message err) (Some 5000)).

Definition handleKeyPress (pressed : jsstring) (shiftKey : bool)
  : Js (option Pending) :=
  if eqb_str pressed (str "Enter") && negb shiftKey
  then handleSendMessage_begin None
  else mret None.

Definition clearChatHistory : Js unit :=
  setMessages (Value []);;
  toast info (str "Chat history cleared") None.

(** One send in isolation: the handler runs to its [await], the request
    settles against [remote], and the handler runs to its end. *)
Definition send (customMessage : option jsstring) (remote : Remote)
  : Js unit :=
  started ← handleSendMessage_begin customMessage;
  match started with
  | None => mret tt
  | Some p =>
      let '(ms, outcome) := fetch_with_deadline remote in
      modify (elapse ms);;
      handleSendMessage_settle p outcome
  end.

(** The state of a freshly mounted [App] over an empty local storage. *)
Definition initial (accepts : string -> StoredText -> bool) (now : N)
  : World :=
  {| isOpen := false;
     messages := [];
     inputValue := [];
     userRole := None;
     chatSettings :=
       {| notifications := true; soundEnabled := true; theme := light |};
     isLoading := false;
     connectionStatus := connected;
     localStorage := ∅;
     storageAccepts := accepts;
     onLine := true;
     clock := now;
     effects := [] |}.

(** ** The dialog: role selection and the send button of [ChatDialog] *)

Module ChatDialog.

(** [Object.keys(PRESET_QUESTIONS_BY_ROLE)], one button each. *)
Inductive RoleKey := student | teacher | parent | general.

Definition roleType (r : RoleKey) : jsstring :=
  match r with
  | student => str "student"
  | teacher => str "teacher"
  | parent => str "parent"
  | general => str "general"
  end.

(** The component's own [useState] cells. *)
Record State := mkState {
  role : option RoleKey;
  isMinimized : bool;
  showQuickReplies : bool
}.

Definition mounted : State :=
  {| role := None; isMinimized := false; showQuickReplies := true |}.

(** The [onSendMessage] prop.  [App] passes its [handleSendMessage], a
    function of the one parameter [customMessage]: a second argument of a
    call is bound to nothing. *)
Definition onSendMessage (customMessage : jsstring)
    (second : option jsstring) : Js (option Pending) :=
  handleSendMessage_begin (Some customMessage).

Definition handleRoleSelect (selectedRole : RoleKey) (d : State)
  : Js State :=
  toast success
    (str "Role selected: " ++ capitalize (roleType selectedRole)) None;;
  mret {| role := Some selectedRole;
          isMinimized := isMinimized d;
          showQuickReplies := showQuickReplies d |}.

(** The [Change Role] button: [setRole(null)]. *)
Definition changeRole (d : State) : State :=
  {| role := None;
     isMinimized := isMinimized d;
     showQuickReplies := showQuickReplies d |}.

Definition handlePresetClick (question : jsstring) (d : State)
  : Js (State * option Pending) :=
  started ← onSendMessage question (roleType <$> role d);
  mret ({| role := role d;
           isMinimized := isMinimized d;
           showQuickReplies := false |}, started).

(** A click on the send button, which is disabled while a reply is
    awaited and while the input trims to nothing. *)
Definition sendButton_onClick (d : State) : Js (option Pending) :=
  typed ← read inputValue;
  busy ← read isLoading;
  if busy || eqb_str (trim typed) []
  then mret None
  else onSendMessage typed (roleType <$> role d).

End ChatDialog.

(** ** Observations *)

(** The bodies of the requests sent so far. *)
Definition requests (w : World) : list RequestBody :=
  omap (fun e => match e with Fetch b => Some b | _ => None end) (effects w).

(** The notifications raised so far. *)
Definition toasts (w : World) : list (ToastKind * jsstring) :=
  omap (fun e => match e with Toast k m _ => Some (k, m) | _ => None end)
    (effects w).

(** The writes to local storage attempted so far. *)
Definition writes (w : World) : list (string * StoredText) :=
  omap (fun e => match e with SetItem k v => Some (k, v) | _ => None end)
    (effects w).

(** The error entries of a timeline. *)
Definition errors (ms : list Message) : list Message :=
  List.filter isError ms.

(** The entries of a timeline the user wrote. *)
Definition from_user (ms : list Message) : list Message :=
  List.filter (fun m => match sender m with user => true | bot => false end) ms.

(** ** The failure kinds of the design, in its own words *)

Module Spec.

Inductive AssistantError :=
  | Timeout
  | Offline
  | ServerError (status : N) (statusText : jsstring)
  | Unknown (message : jsstring).

(** The request was cancelled because the deadline elapsed first. *)
Definition cancelled_by_deadline (remote : Remote) : bool :=
  match remote with
  | NeverResponds => true
  | Responds after _ | Unreachable after _ => timeout_ms <=? after
  end.

(** The exchange did not produce a reply. *)
Definition failed (remote : Remote) : bool :=
  cancelled_by_deadline remote ||
  match remote with
  | NeverResponds | Unreachable _ _ => true
  | Responds _ r =>
      negb (ok r) || match body r with JsonBody _ => false | BadBody _ => true end
  end.

(** The kind of a failed exchange: the four cases, tried in order. *)
Definition classify (remote : Remote) (online : bool) : AssistantError :=
  if cancelled_by_deadline remote then Timeout
  else if negb online then Offline
  else
    match remote with
    | Responds _ r =>
        if negb (ok r) then ServerError (status r) (statusText r)
        else Unknown match body r with BadBody why => why | JsonBody _ => [] end
    | Unreachable _ why => Unknown why
    | NeverResponds => Timeout
    end.

(** The human-readable description of a failure, the [message] of the
    error the client rejects with. *)
Definition describe (e : AssistantError) : jsstring :=
  match e with
  | Timeout => str "Request timed out. Please try again."
  | Offline => str "No internet connection. Please check your network."
  | ServerError status statusText =>
      str "Server error: " ++ decimal status ++ str " " ++ statusText
  | Unknown message =>
      or_else message (str "Failed to connect to server. Please try again.")
  end.

End Spec.

(** ** Persistent store: the initial value of [useLocalStorage] *)

(** [JSON.parse(item)] at the type of a slot: the value, or the error for
    the text [undefined], which is not JSON.  [None] stands for the text of
    a value of another slot's shape: the hook would hand such a value on as
    it is, which this typed model does not follow; the handlers never write
    one under the slot's key. *)
Definition JSON_parse {T} (s : Slot T) (item : StoredText)
  : option (Completion T) :=
  match item with
  | TextUndefined =>
      Some (Thrown (SyntaxError (str "Unexpected token u in JSON at position 0")))
  | _ =>
      match s in Slot T return option (Completion T) with
      | ChatMessages =>
          match item with JsonMessages ms => Some (Normal ms) | _ => None end
      | UserRole =>
          match item with JsonRole r => Some (Normal r) | _ => None end
      | ChatSettings =>
          match item with JsonSettings c => Some (Normal c) | _ => None end
      end
  end.

(** The initializer that the hook hands to [useState]. *)
Definition initialValue {T} (s : Slot T) (defaultValue : T) : Js (option T) :=
  try_catch
    (item ← read (fun w => localStorage w !! key s);
     match item with
     | None => mret (Some defaultValue)
     | Some stored =>
         match JSON_parse s stored with
         | Some (Normal v) => mret (Some v)
         | Some (Thrown e) => throw e
         | None => mret None
         end
     end)
    (fun _ =>
       console_warn
         (str "Error reading localStorage key " ++ [34] ++ str (key s)
            ++ [34] ++ str ":");;
       mret (Some defaultValue)).

Definition defaultSettings : Settings :=
  {| notifications := true; soundEnabled := true; theme := light |}.

(** A page load: [App] mounts over the browser as it is, every state cell
    starting from its initial value. *)
Definition mount : Js (option unit) :=
  stored_messages ← initialValue ChatMessages [];
  stored_role ← initialValue UserRole None;
  stored_settings ← initialValue ChatSettings defaultSettings;
  match stored_messages, stored_role, stored_settings with
  | Some ms, Some r, Some c =>
      modify (fun w =>
        mkWorld false ms [] r c false connected (localStorage w)
          (storageAccepts w) (onLine w) (clock w) (effects w));;
      mret (Some tt)
  | _, _, _ => mret None
  end.

(** Every stored entry is one the initializer of its slot can read or
    reject. *)
Definition readable (m : gmap string StoredText) : Prop :=
  forall T (s : Slot T) item, m !! key s = Some item -> JSON_parse s item <> None.

(** ** More handlers of [App] *)

(** Where a mouse press lands. *)
Inductive Target := InDialog | InBubble | Elsewhere.

(** [handleClickOutside].  [dialogRef.current] is the dialog's element,
    there while the dialog is rendered, that is while [isOpen]; the bubble
    is always rendered. *)
Definition handleClickOutside (target : Target) : Js unit :=
  open ← read isOpen;
  let dialogRef_current := open in
  let in_dialog := match target with InDialog => true | _ => false end in
  let in_bubble := match target with InBubble => true | _ => false end in
  if dialogRef_current && negb in_dialog && open
  then if negb in_bubble then setIsOpen (Value false) else mret tt
  else mret tt.

Definition handleEscapeKey (pressed : jsstring) : Js unit :=
  open ← read isOpen;
  if eqb_str pressed (str "Escape") && open
  then setIsOpen (Value false)
  else mret tt.

Definition handleOnline : Js unit :=
  toast success (str "Connection restored!") None.

Definition handleOffline : Js unit :=
  toast toast_error (str "Connection lost. Please check your internet.") None.

(** The network comes or goes: [navigator.onLine] changes and the window
    gets the event. *)
Definition network (up : bool) : Js unit :=
  modify (fun w =>
    mkWorld (isOpen w) (messages w) (inputValue w) (userRole w)
      (chatSettings w) (isLoading w) (connectionStatus w) (localStorage w)
      (storageAccepts w) up (clock w) (effects w));;
  if up then handleOnline else handleOffline.

(** The file that [exportChatHistory] has the browser download.  The date
    in its name is kept as the day it denotes. *)
Record Download := mkDownload {
  file_day : N;                         (* [chat-history-<day>.json] *)
  doc_messages : list Message;
  doc_exportDate : N;
  doc_userRole : option jsstring
}.

Definition exportChatHistory : Js Download :=
  ms ← read messages;
  r ← read userRole;
  now ← read clock;
  toast success (str "Chat history exported!") None;;
  mret {| file_day := now / 86400000;
          doc_messages := ms; doc_exportDate := now; doc_userRole := r |}.

(** The banner [App] renders under [connectionStatus === 'error']. *)
Definition connectionErrorBanner (w : World) : bool :=
  match connectionStatus w with error => true | _ => false end.

(** The sounds played so far. *)
Definition sounds (w : World) : nat :=
  List.length (List.filter (fun e => match e with AudioPlay => true | _ => false end)
                 (effects w)).

(** The warnings logged so far. *)
Definition warnings (w : World) : list jsstring :=
  omap (fun e => match e with ConsoleWarn m => Some m | _ => None end)
    (effects w).

(** ** The widget as a machine: what can happen to [App], one step at a
    time *)

Inductive Action :=
  | Toggle                                          (* the bubble is clicked *)
  | InputChange (v : jsstring)
  | ClickOutside (target : Target)
  | EscapeKey (pressed : jsstring)
  | Network (up : bool)
  | SendMessage (customMessage : option jsstring)   (* runs to its [await] *)
  | KeyPress (pressed : jsstring) (shiftKey : bool)
  | Settled (p : Pending) (outcome : FetchOutcome)  (* a request settles *)
  | ClearHistory
  | ExportHistory
  | RoleChange (a : SetStateAction (option jsstring))
  | SettingsChange (a : SetStateAction Settings)
  | Wait (ms : N).

Definition perform (a : Action) : Js unit :=
  match a with
  | Toggle => toggleChatDialog
  | InputChange v => handleInputChange v
  | ClickOutside target => handleClickOutside target
  | EscapeKey pressed => handleEscapeKey pressed
  | Network up => network up
  | SendMessage customMessage => handleSendMessage_begin customMessage;; mret tt
  | KeyPress pressed shiftKey => handleKeyPress pressed shiftKey;; mret tt
  | Settled p outcome => handleSendMessage_settle p outcome
  | ClearHistory => clearChatHistory
  | ExportHistory => exportChatHistory;; mret tt
  | RoleChange a => setUserRole a
  | SettingsChange a => setChatSettings a
  | Wait ms => modify (elapse ms)
  end.

Definition run (actions : list Action) (w : World) : World :=
  fold_left (fun w a => exec (perform a) w) actions w.

(** ** A response whose body never completes

    [sendMessage] has a second suspension point, [await response.json()],
    and reaches it after [clearTimeout(timeoutId)]: once the head of a
    response with a success status has arrived, nothing ends the wait for
    its body.  A [Remote] is a course in which the request settles; a
    [Course] adds the one in which the head arrives and the body never
    does. *)
Inductive Course :=
  | Settles (remote : Remote)
  | BodyNeverCompletes (after : N) (status : N) (statusText : jsstring).

(** Whether [handleSendMessage] has returned or is still suspended. *)
Inductive Progress := Returned | Suspended.

(** The response of which only the head arrives.  Its body is read on no
    path: a response without a success status makes [sendMessage] throw
    before it reads the body. *)
Definition head (status : N) (statusText : jsstring) : Response :=
  {| status := status; statusText := statusText; body := BadBody [] |}.

(** [handleSendMessage] from the moment the [fetch] promise settles, as far
    as it gets without the body: to its end, or to the
    [await response.json()] of its [sendMessage], where the timer is
    cleared and no state has been written since the request went out. *)
Definition handleSendMessage_upto_json (p : Pending) (outcome : FetchOutcome)
  : Js Progress :=
  match outcome with
  | Fulfilled r =>
      if ok r then mret Suspended
      else handleSendMessage_settle p outcome;; mret Returned
  | Rejected _ => handleSendMessage_settle p outcome;; mret Returned
  end.

(** One send in isolation, along a course. *)
Definition send_course (customMessage : option jsstring) (course : Course)
  : Js Progress :=
  match course with
  | Settles remote => send customMessage remote;; mret Returned
  | BodyNeverCompletes after status statusText =>
      started ← handleSendMessage_begin customMessage;
      match started with
      | None => mret Returned
      | Some p =>
          let '(ms, outcome) :=
            fetch_with_deadline (Responds after (head status statusText)) in
          modify (elapse ms);;
          handleSendMessage_upto_json p outcome
      end
  end.

(** The courses along which the handler is left suspended: the head of a
    response with a success status arrives before the deadline, the body
    never. *)
Definition stalls (course : Course) : bool :=
  match course with
  | Settles _ => false
  | BodyNeverCompletes after status statusText =>
      (after <? timeout_ms) && ok (head status statusText)
  end.

(** ** More of [ChatDialog] *)

Module ChatDialogView.

Import ChatDialog.

Definition PRESET_QUESTIONS_BY_ROLE (r : RoleKey) : list jsstring :=
  match r with
  | student =>
      [str "How can I apply for admission?";
       str "Where can I find course details?";
       str "How can I access student login?";
       str "How to check exam timetable or results?";
       str "How can I access the library or e-resources?";
       str "What are the fees for different courses?";
       str "How do I get my transcripts?";
       str "What scholarships are available?"]
  | teacher =>
      [str "How can teachers access staff login or portal?";
       str "Where can I find faculty-related circulars?";
       str "How can I participate in faculty development programs?";
       str "How do I submit research papers?";
       str "What are the teaching guidelines?";
       str "How to access academic calendar?"]
  | parent =>
      [str "How can parents track student performance?";
       str "How do I contact a specific department or faculty?";
       str "Is hostel facility available?";
       str "What are the visiting hours?";
       str "How do I pay fees online?";
       str "What safety measures are in place?"]
  | general =>
      [str "What is the official website of Modern College Pune?";
       str "Where is Modern College located?";
       str "How do I contact Modern College Pune?";
       str "Who is the principal of Modern College Pune?";
       str "What courses are offered?";
       str "What are the college timings?"]
  end.

(** [role ? PRESET_QUESTIONS_BY_ROLE[role] || [] : []] *)
Definition presetQuestions (d : State) : list jsstring :=
  match role d with
  | Some r => PRESET_QUESTIONS_BY_ROLE r
  | None => []
  end.

(** The quick replies offered: [presetQuestions.slice(0, 4)]. *)
Definition quickReplies (d : State) : list jsstring :=
  take 4 (presetQuestions d).

(** The caption of a quick reply:
    [question.length > 30 ? question.substring(0, 30) + '...' : question]. *)
Definition caption (question : jsstring) : jsstring :=
  if (30 <? List.length question)%nat
  then take 30 question ++ str "..."
  else question.

Definition handleMinimize (d : State) : State :=
  {| role := role d;
     isMinimized := negb (isMinimized d);
     showQuickReplies := showQuickReplies d |}.

(** The header's status text. *)
Definition headerStatus (w : World) : jsstring :=
  match connectionStatus w with
  | connected => str "Online"
  | _ => str "Offline"
  end.

(** What [App] passes to the dialog, by attribute name. *)
Inductive PropValue :=
  | Data
  | OnInput (f : jsstring -> Js unit)
  | OnSend (f : option jsstring -> Js (option Pending))
  | OnKey (f : jsstring -> bool -> Js (option Pending))
  | OnRole (f : SetStateAction (option jsstring) -> Js unit)
  | OnSettings (f : SetStateAction Settings -> Js unit)
  | OnClear (f : Js unit)
  | OnExport (f : Js Download).

Definition props : gmap string PropValue :=
  list_to_map
    [("messages", Data); ("inputValue", Data);
     ("onInputChange", OnInput handleInputChange);
     ("onSendMessage", OnSend handleSendMessage_begin);
     ("onKeyPress", OnKey handleKeyPress);
     ("isLoading", Data); ("userRole", Data);
     ("onRoleChange", OnRole setUserRole);
     ("onClearHistory", OnClear clearChatHistory);
     ("onExportHistory", OnExport exportChatHistory);
     ("chatSettings", Data);
     ("onSettingsChange", OnSettings setChatSettings);
     ("connectionStatus", Data)].

(** A click on a button whose [onClick] is the prop of the given name.  A
    prop that was not passed is [undefined] and the click does nothing.
    [None]: the prop holds something this model does not call with a click
    event. *)
Definition click_prop (attribute : string) : option (Js unit) :=
  match props !! attribute with
  | None => Some (mret tt)
  | Some (OnClear f) => Some f
  | Some (OnExport f) => Some (f;; mret tt)
  | Some _ => None
  end.

(** The header's [Clear Chat] and [Export Chat] buttons:
    [onClick={onClearChat}], [onClick={onExportChat}]. *)
Definition clearButton_onClick : option (Js unit) := click_prop "onClearChat".
Definition exportButton_onClick : option (Js unit) := click_prop "onExportChat".

(** The typing indicator is rendered under the [isTyping] prop. *)
Definition typingIndicator : bool :=
  match props !! "isTyping" with Some _ => true | None => false end.

(** The controls of the dialog that change its own state. *)
Inductive Control :=
  | HeaderBar                       (* the minimized dialog's header *)
  | MinimizeButton
  | RoleButton (r : RoleKey)
  | ChangeRoleButton
  | QuickReplyButton (index : nat)
  | SendButton.

(** Whether a control is rendered and enabled. *)
Definition available (c : Control) (d : State) (w : World) : bool :=
  if isMinimized d
  then match c with HeaderBar => true | _ => false end
  else
    match c with
    | HeaderBar => false
    | MinimizeButton => true
    | RoleButton _ => match role d with None => true | Some _ => false end
    | ChangeRoleButton =>
        match role d with Some _ => showQuickReplies d | None => false end
    | QuickReplyButton index =>
        match role d with Some _ => showQuickReplies d | None => false end
        && bool_decide (index < List.length (quickReplies d))%nat
        && negb (isLoading w)
    | SendButton => negb (isLoading w || eqb_str (trim (inputValue w)) [])
    end.

(** A click on a control; nothing happens on one that is not there. *)
Definition click (c : Control) (d : State) : Js (State * option Pending) :=
  usable ← read (available c d);
  if usable : bool
  then
    match c with
    | HeaderBar | MinimizeButton => mret (handleMinimize d, None)
    | RoleButton r => d' ← handleRoleSelect r d; mret (d', None)
    | ChangeRoleButton => mret (changeRole d, None)
    | QuickReplyButton index =>
        match quickReplies d !! index with
        | Some question => handlePresetClick question d
        | None => mret (d, None)
        end
    | SendButton => started ← sendButton_onClick d; mret (d, started)
    end
  else mret (d, None).

(** A click on the send button in isolation: the handler runs to its
    [await], the request settles against [remote], and the handler runs
    to its end. *)
Definition sendButton_send (d : State) (remote : Remote) : Js unit :=
  started ← sendButton_onClick d;
  match started with
  | None => mret tt
  | Some p =>
      let '(ms, outcome) := fetch_with_deadline remote in
      modify (elapse ms);;
      handleSendMessage_settle p outcome
  end.

(** A series of clicks, the dialog's state threaded through. *)
Fixpoint clicks (cs : list Control) (d : State) (w : World) : State * World :=
  match cs with
  | [] => (d, w)
  | c :: rest =>
      match click c d w with
      | (Normal (d', _), w') => clicks rest d' w'
      | (Thrown _, w') => (d, w')
      end
  end.

End ChatDialogView.

(** ** The bubble: [ChatBubble] *)

Module ChatBubble.

(** [getStatusColor], on the three statuses [App] passes. *)
Definition getStatusColor (status : ConnectionStatus) : jsstring :=
  match status with
  | connected => str "bg-green-500"
  | connecting => str "bg-yellow-500"
  | error => str "bg-red-500"
  end.

Inductive Icon := Wifi | WifiOff.

Definition getStatusIcon (status : ConnectionStatus) : option Icon :=
  match status with
  | connected => Some Wifi
  | error => Some WifiOff
  | connecting => None
  end.

(** The bubble's [onKeyDown]: Enter and the space bar act as a click. *)
Definition onKeyDown (pressed : jsstring) : Js unit :=
  if eqb_str pressed (str "Enter") || eqb_str pressed (str " ")
  then toggleChatDialog
  else mret tt.

End ChatBubble.

(** ** Further observations *)

(** A request body whose message is not empty and has no white space at
    either end. *)
Definition tidy (b : RequestBody) : Prop :=
  req_message b <> [] /\ trim (req_message b) = req_message b /\
  (forall c rest, req_message b = c :: rest -> isWhiteSpace c = false) /\
  (forall c, last (req_message b) = Some c -> isWhiteSpace c = false).

(** The actions that start or finish an exchange: a send, Enter without
    Shift in the input, and a request settling.  Any other key press in
    the input is not one. *)
Definition is_exchange (a : Action) : bool :=
  match a with
  | SendMessage _ | Settled _ _ => true
  | KeyPress pressed shiftKey =>
      eqb_str pressed (str "Enter") && negb shiftKey
  | _ => false
  end.

Definition is_clear (a : Action) : bool :=
  match a with ClearHistory => true | _ => false end.

(** The entries of the timeline are in the order of their time stamps,
    none of them later than the present. *)
Definition chronological (w : World) : Prop :=
  (forall i j a b, (i <= j)%nat ->
     messages w !! i = Some a -> messages w !! j = Some b ->
     timestamp a <= timestamp b) /\
  Forall (fun m => timestamp m <= clock w) (messages w).

(** The value a slot starts from, given what is stored under its key. *)
Definition hydrated {T} (s : Slot T) (defaultValue : T)
    (m : gmap string StoredText) : T :=
  match m !! key s with
  | Some item =>
      match JSON_parse s item with
      | Some (Normal v) => v
      | _ => defaultValue
      end
  | None => defaultValue
  end.

(** * Properties *)

(** ** Running the monad *)

Lemma bind_run {A B} (m : Js A) (f : A -> Js B) (w : World) :
  (m ≫= f) w =
  match m w with
  | (Normal a, w') => f a w'
  | (Thrown e, w') => (Thrown e, w')
  end.
Proof. reflexivity. Qed.

Ltac js_unfold :=
  unfold exec, completion, try_catch, try_finally, throw, read, modify, emit,
    mbind, Js_bind, mret, Js_ret in *.

(** ** Strings *)

Lemma eqb_str_eq (a b : jsstring) : eqb_str a b = true <-> a = b.
Proof.
  revert b; induction a as [|x a IH]; intros [|y b]; simpl; try easy.
  rewrite andb_true_iff, N.eqb_eq, IH. split.
  - intros [-> ->]; reflexivity.
  - intros [= -> ->]; auto.
Qed.

Lemma strict_eqb_eq (a b : option jsstring) : strict_eqb a b = true <-> a = b.
Proof.
  destruct a as [x|], b as [y|]; simpl; try easy.
  rewrite eqb_str_eq. split; [intros ->; reflexivity | intros [= ->]; reflexivity].
Qed.

Lemma truthy_false (s : jsstring) : truthy s = false <-> s = [].
Proof. destruct s; simpl; split; easy. Qed.

(** ** Persistent store *)

(** What one call of the setter does, whatever the browser answers. *)
Lemma setStoredValue_run {T} (s : Slot T) (newValue : SetStateAction T)
    (w : World) :
  setStoredValue s newValue w =
  (Normal tt,
   let item := stringify s newValue in
   let w1 := exec (emit (SetItem (key s) item)) (exec (setValue s newValue) w) in
   if storageAccepts w (key s) item
   then mkWorld (isOpen w1) (messages w1) (inputValue w1) (userRole w1)
          (chatSettings w1) (isLoading w1) (connectionStatus w1)
          (<[key s := item]> (localStorage w1))
          (storageAccepts w1) (onLine w1) (clock w1) (effects w1)
   else exec (console_warn
                (str "Error setting localStorage key " ++ [34]
                   ++ str (key s) ++ [34] ++ str ":")) w1).
Proof.
  unfold setStoredValue, setItem, console_warn.
  destruct s; cbn; js_unfold; cbn;
    match goal with |- context [storageAccepts w ?k ?i] =>
      destruct (storageAccepts w k i) end; reflexivity.
Qed.

#[local] Arguments setStoredValue : simpl never.
#[local] Arguments str : simpl never.
#[local] Arguments decimal : simpl never.
#[local] Arguments trim : simpl never.

(** Runs a handler up to its next use of the persistent store. *)
Ltac js_run :=
  unfold setMessages, setUserRole, setChatSettings in *;
  js_unfold; cbn;
  repeat (rewrite setStoredValue_run; cbn).

Lemma setStoredValue_value {T} (s : Slot T) (newValue : SetStateAction T)
    (w : World) :
  value s (exec (setStoredValue s newValue) w)
  = next_state newValue (value s w).
Proof.
  unfold exec. rewrite setStoredValue_run. cbn.
  destruct (storageAccepts w _ _), s; reflexivity.
Qed.

(** The setter leaves every state cell of [App] but its own as it was, and
    neither sends a request nor raises a notification. *)
Lemma setStoredValue_frame {T} (s : Slot T) (newValue : SetStateAction T)
    (w : World) :
  let w' := exec (setStoredValue s newValue) w in
  isOpen w' = isOpen w /\ inputValue w' = inputValue w /\
  isLoading w' = isLoading w /\ connectionStatus w' = connectionStatus w /\
  storageAccepts w' = storageAccepts w /\ onLine w' = onLine w /\
  clock w' = clock w /\ requests w' = requests w /\ toasts w' = toasts w.
Proof.
  unfold exec. rewrite setStoredValue_run. cbn.
  destruct (storageAccepts w _ _), s; cbn;
    unfold requests, toasts; cbn; rewrite ?omap_app; cbn;
    rewrite ?app_nil_r; repeat split; reflexivity.
Qed.

Lemma setStoredValue_others {T T'} (s : Slot T) (s' : Slot T')
    (newValue : SetStateAction T) (w : World) :
  key s' <> key s ->
  value s' (exec (setStoredValue s newValue) w) = value s' w /\
  localStorage (exec (setStoredValue s newValue) w) !! key s'
  = localStorage w !! key s'.
Proof.
  intros Hne. unfold exec. rewrite setStoredValue_run. cbn.
  destruct (storageAccepts w _ _); cbn.
  - rewrite lookup_insert_ne by congruence.
    destruct s, s'; cbn in *; try congruence; split; reflexivity.
  - destruct s, s'; cbn in *; try congruence; split; reflexivity.
Qed.

(** ** The claims *)

(** C7.  A send whose text trims to the empty string does nothing at all:
    [handleSendMessage] returns at its guard, the whole state (timeline,
    pending input, role, settings, busy flag, connection status, storage and
    everything done to the surroundings, so no request either) is the one
    it started from, and so is the state after the complete send. *)
Theorem blank_send_is_noop (customMessage : option jsstring) (remote : Remote)
    (w : World) :
  trim (default (inputValue w) customMessage) = [] ->
  handleSendMessage_begin customMessage w = (Normal None, w) /\
  send customMessage remote w = (Normal tt, w).
Proof.
  intros Hblank.
  assert (Hbegin : handleSendMessage_begin customMessage w = (Normal None, w)).
  { unfold handleSendMessage_begin. js_unfold.
    destruct customMessage as [m|];
      [change (trim m = []) in Hblank
      |change (trim (inputValue w) = []) in Hblank];
      rewrite Hblank; reflexivity. }
  split; [exact Hbegin|].
  unfold send. rewrite bind_run, Hbegin. reflexivity.
Qed.

Lemma blank_send_is_noop_witness :
  let w := exec (handleInputChange (str "   ")) (initial (fun _ _ => true) 0) in
  handleSendMessage_begin None w = (Normal None, w) /\
  send None NeverResponds w = (Normal tt, w).
Proof. apply blank_send_is_noop. reflexivity. Defined.

(** C2, as the code has it.  The setter that [useLocalStorage] returns
    never throws.  It first sets the in-memory value, then attempts the
    write: whatever the browser answers, the in-memory value of the key is
    the new one; when the write is refused the stored entries are all left
    as they were and a warning is logged; when it is accepted the entry of
    the key is the text of the new value.  The in-memory value and the
    stored entry of every other key are untouched. *)
Theorem save_never_throws {T} (s : Slot T) (newValue : SetStateAction T)
    (w : World) :
  let w' := exec (setStoredValue s newValue) w in
  let item := stringify s newValue in
  completion (setStoredValue s newValue) w = Normal tt /\
  value s w' = next_state newValue (value s w) /\
  localStorage w' =
    (if storageAccepts w (key s) item
     then <[key s := item]> (localStorage w) else localStorage w) /\
  effects w' =
    effects w ++ SetItem (key s) item ::
      (if storageAccepts w (key s) item then []
       else [ConsoleWarn (str "Error setting localStorage key " ++ [34]
                            ++ str (key s) ++ [34] ++ str ":")]) /\
  (forall T' (s' : Slot T'), key s' <> key s ->
     value s' w' = value s' w /\
     localStorage w' !! key s' = localStorage w !! key s').
Proof.
  cbn. split; [|split; [|split; [|split]]].
  - unfold completion. rewrite setStoredValue_run. reflexivity.
  - apply setStoredValue_value.
  - unfold exec. rewrite setStoredValue_run. cbn.
    destruct (storageAccepts w _ _), s; reflexivity.
  - unfold exec. rewrite setStoredValue_run. cbn.
    destruct (storageAccepts w _ _), s; cbn; rewrite <- ?app_assoc; reflexivity.
  - intros T' s' Hne. apply setStoredValue_others, Hne.
Qed.

(** C2, as the claim words it, fails: the browser refuses the write of a
    role, and the in-memory role is no longer the prior one. *)
Lemma save_failure_changes_memory :
  let w := initial (fun _ _ => false) 0 in
  let newValue := Value (Some (str "student")) in
  storageAccepts w (key UserRole) (stringify UserRole newValue) = false /\
  ~ (value UserRole (exec (setStoredValue UserRole newValue) w)
     = value UserRole w).
Proof. split; [reflexivity | discriminate]. Qed.

Lemma save_never_throws_witness :
  let w := initial (fun _ _ => false) 0 in
  let newValue := Value (Some (str "student")) in
  completion (setStoredValue UserRole newValue) w = Normal tt /\
  value ChatMessages (exec (setStoredValue UserRole newValue) w)
  = value ChatMessages w.
Proof.
  pose proof (save_never_throws UserRole (Value (Some (str "student")))
                (initial (fun _ _ => false) 0)) as (Hc & _ & _ & _ & Hother).
  split; [exact Hc|].
  apply (Hother _ ChatMessages). discriminate.
Defined.

(** C10.  [clearChatHistory] empties the timeline and touches nothing else
    of the state: the in-memory role and settings and their stored entries
    are what they were, as are the dialog flag, the pending input, the busy
    flag and the connection status; no request is sent.  The stored
    timeline is the empty one when the browser accepts the write. *)
Theorem clearHistory_only_timeline (w : World) :
  let w' := exec clearChatHistory w in
  messages w' = [] /\
  userRole w' = userRole w /\ chatSettings w' = chatSettings w /\
  localStorage w' !! "userRole" = localStorage w !! "userRole" /\
  localStorage w' !! "chatSettings" = localStorage w !! "chatSettings" /\
  localStorage w' !! "chatMessages" =
    (if storageAccepts w "chatMessages" (JsonMessages [])
     then Some (JsonMessages []) else localStorage w !! "chatMessages") /\
  isOpen w' = isOpen w /\ inputValue w' = inputValue w /\
  isLoading w' = isLoading w /\ connectionStatus w' = connectionStatus w /\
  requests w' = requests w.
Proof.
  unfold clearChatHistory, setMessages, toast, exec.
  rewrite bind_run, setStoredValue_run. cbn.
  destruct (storageAccepts w _ _); cbn; unfold requests; cbn;
    rewrite ?omap_app; cbn; rewrite ?app_nil_r, ?lookup_insert_eq;
    rewrite ?lookup_insert_ne by discriminate;
    repeat split; reflexivity.
Qed.

(** C8, as the code has it.  Opening the dialog (a toggle while it is
    closed) over an empty timeline in memory makes the timeline the one welcome message of the assistant
    and saves exactly that timeline under [chatMessages], the one write
    attempted; the stored entry is that timeline when the browser accepts
    the write.  Opening over a non-empty timeline changes neither the
    timeline nor the store and attempts no write.  In both cases the
    timeline is non-empty afterwards, and closing and opening again leaves
    it as it is. *)
Theorem welcome_exactly_once (w : World) :
  isOpen w = false ->
  let w1 := exec toggleChatDialog w in
  let welcome := [welcomeMessage (clock w)] in
  isOpen w1 = true /\
  match messages w with
  | [] =>
      messages w1 = welcome /\
      sender (welcomeMessage (clock w)) = bot /\
      writes w1 = writes w ++ [("chatMessages", JsonMessages welcome)] /\
      localStorage w1 =
        (if storageAccepts w "chatMessages" (JsonMessages welcome)
         then <["chatMessages" := JsonMessages welcome]> (localStorage w)
         else localStorage w)
  | _ :: _ =>
      messages w1 = messages w /\ writes w1 = writes w /\
      localStorage w1 = localStorage w
  end /\
  messages (exec toggleChatDialog (exec toggleChatDialog w1)) = messages w1.
Proof.
  intros Hclosed. unfold toggleChatDialog. js_run. rewrite Hclosed. cbn.
  destruct (messages w) as [|m ms] eqn:Hm; cbn.
  - rewrite setStoredValue_run. cbn.
    destruct (storageAccepts w _ _); cbn;
      unfold writes; cbn; rewrite ?omap_app; cbn; rewrite ?app_nil_r;
      repeat split; reflexivity.
  - repeat split; reflexivity.
Qed.

Lemma welcome_exactly_once_witness :
  let w := initial (fun _ _ => true) 5 in
  messages (exec toggleChatDialog w) = [welcomeMessage 5] /\
  localStorage (exec toggleChatDialog w) !! "chatMessages"
  = Some (JsonMessages [welcomeMessage 5]).
Proof.
  pose proof (welcome_exactly_once (initial (fun _ _ => true) 5) eq_refl)
    as (_ & (Hm & _ & _ & Hs) & _).
  split; [exact Hm|]. rewrite Hs. apply lookup_insert_eq.
Defined.

(** C8, as the claim words it, fails: nothing is stored, so the persisted
    timeline is empty; the browser refuses writes; opening the dialog
    creates the welcome message in memory, and it is not persisted. *)
Lemma welcome_not_persisted_when_write_refused :
  let w := initial (fun _ _ => false) 0 in
  let w' := exec toggleChatDialog w in
  localStorage w !! "chatMessages" = None /\
  messages w' = [welcomeMessage 0] /\
  ~ (localStorage w' !! "chatMessages"
     = Some (JsonMessages [welcomeMessage 0])).
Proof. repeat split. discriminate. Qed.

(** C5.  The connection status of a freshly mounted widget is [connected].
    Every call of [sendMessage] sets it to [connecting] before the request
    goes out.  Once the request has settled and the call resolves, the
    status is [connected] exactly when the exchange succeeded, that is
    when a response with a success status arrived before the deadline and
    its body was read, which is exactly when the call returns a reply;
    it is [error] when the exchange failed in any way. *)
Theorem connection_status_follows_exchange :
  (forall accepts now, connectionStatus (initial accepts now) = connected) /\
  (forall message role w,
     connectionStatus (exec (sendMessage_begin message role) w) = connecting) /\
  (forall remote w,
     let outcome := (fetch_with_deadline remote).2 in
     connectionStatus (exec (sendMessage_settle outcome) w)
     = (if Spec.failed remote then error else connected) /\
     (Spec.failed remote = false <->
      exists reply, completion (sendMessage_settle outcome) w = Normal reply)) /\
  (forall outcome w,
     connectionStatus (exec (sendMessage_settle outcome) w) =
     match outcome with
     | Fulfilled r =>
         if ok r
         then match body r with JsonBody _ => connected | BadBody _ => error end
         else error
     | Rejected _ => error
     end).
Proof.
  split; [reflexivity|]. split; [reflexivity|].
  assert (Hsettle : forall outcome w,
            connectionStatus (exec (sendMessage_settle outcome) w) =
            match outcome with
            | Fulfilled r =>
                if ok r
                then match body r with
                     | JsonBody _ => connected
                     | BadBody _ => error
                     end
                else error
            | Rejected _ => error
            end /\
            ((exists reply, completion (sendMessage_settle outcome) w
                            = Normal reply) <->
             match outcome with
             | Fulfilled r =>
                 ok r && match body r with
                         | JsonBody _ => true
                         | BadBody _ => false
                         end = true
             | Rejected _ => False
             end)).
  { intros outcome w. unfold sendMessage_settle. js_unfold.
    destruct outcome as [r|e]; cbn.
    - destruct (ok r); cbn.
      + destruct (body r); cbn.
        * split; [reflexivity|]. split; [reflexivity | eauto].
        * destruct (onLine w); (split; [reflexivity|]);
            (split; [intros [reply H]; discriminate H | discriminate]).
      + destruct (onLine w); (split; [reflexivity|]);
          (split; [intros [reply H]; discriminate H | discriminate]).
    - destruct (eqb_str (name e) (str "AbortError")); cbn;
        [|destruct (onLine w)]; (split; [reflexivity|]);
        (split; [intros [reply H]; discriminate H | intros []]). }
  split; [|intros outcome w; apply Hsettle].
  intros remote w outcome. subst outcome.
  destruct (Hsettle (fetch_with_deadline remote).2 w) as [Hstatus Hreply].
  rewrite Hstatus, Hreply. clear Hstatus Hreply.
  unfold Spec.failed, Spec.cancelled_by_deadline, fetch_with_deadline.
  destruct remote as [|after r|after why]; cbn.
  - split; [reflexivity|]. split; [discriminate | intros []].
  - rewrite N.ltb_antisym. destruct (timeout_ms <=? after); cbn.
    + split; [reflexivity|]. split; [discriminate | intros []].
    + destruct (ok r); cbn; [destruct (body r); cbn|];
        (split; [reflexivity|]); split; intros H;
        first [reflexivity | discriminate H].
  - rewrite N.ltb_antisym. destruct (timeout_ms <=? after); cbn;
      (split; [reflexivity|]); (split; [discriminate | intros []]).
Qed.

(** ** The exchange *)

Lemma AbortError_is_abort : eqb_str (name AbortError) (str "AbortError") = true.
Proof. reflexivity. Qed.

Lemma Error_is_not_abort (msg : jsstring) :
  eqb_str (name (Error msg)) (str "AbortError") = false.
Proof. reflexivity. Qed.

Lemma TypeError_is_not_abort (msg : jsstring) :
  eqb_str (name (TypeError msg)) (str "AbortError") = false.
Proof. reflexivity. Qed.

Lemma SyntaxError_is_not_abort (msg : jsstring) :
  eqb_str (name (SyntaxError msg)) (str "AbortError") = false.
Proof. reflexivity. Qed.

Lemma server_error_text (status : N) (statusText fallback : jsstring) :
  or_else (str "Server error: " ++ decimal status ++ str " " ++ statusText)
    fallback
  = str "Server error: " ++ decimal status ++ str " " ++ statusText.
Proof. reflexivity. Qed.

(** What [sendMessage] does once a request that was aborted settles. *)
Lemma sendMessage_settle_aborted (w : World) :
  sendMessage_settle (Rejected AbortError) w =
  (Thrown (Error (str "Request timed out. Please try again.")),
   exec (setIsLoading false) (exec (setConnectionStatus error) w)).
Proof. reflexivity. Qed.

(** An exchange that does not fail returns a reply. *)
Lemma sendMessage_settle_succeeds (remote : Remote) (w : World) :
  Spec.failed remote = false ->
  exists r data,
    (fetch_with_deadline remote).2 = Fulfilled r /\ body r = JsonBody data /\
    completion (sendMessage_settle (fetch_with_deadline remote).2) w =
    Normal {| reply_text := data_response data;
              reply_role := data_detected_role data;
              reply_confidence := confidence_or_null (data_confidence data);
              reply_timestamp := clock w |}.
Proof.
  unfold Spec.failed, Spec.cancelled_by_deadline, fetch_with_deadline.
  destruct remote as [|after r|after why]; cbn; try discriminate.
  - rewrite N.ltb_antisym. destruct (timeout_ms <=? after); cbn; [discriminate|].
    destruct (ok r) eqn:Hok; cbn; [|discriminate].
    destruct (body r) as [data|why] eqn:Hbody; [|discriminate].
    intros _. exists r, data. split; [reflexivity|]. split; [exact Hbody|].
    unfold sendMessage_settle. js_unfold. cbn. rewrite Hok. cbn.
    rewrite Hbody. reflexivity.
  - rewrite orb_true_r. discriminate.
Qed.

(** The descriptions of the three kinds that carry no free text tell the
    kinds apart. *)
Lemma describe_tells_kinds_apart (status : N) (statusText : jsstring) :
  Spec.describe Spec.Timeout <> Spec.describe Spec.Offline /\
  Spec.describe (Spec.ServerError status statusText)
  <> Spec.describe Spec.Timeout /\
  Spec.describe (Spec.ServerError status statusText)
  <> Spec.describe Spec.Offline.
Proof. repeat split; discriminate. Qed.

(** C4.  A failed exchange makes [sendMessage] throw one error, whose
    message is the description of the kind that the four cases, tried in
    the order deadline, reachability, status, anything else, assign to
    it: [Timeout] when the request was cancelled by the deadline, else
    [Offline] when the browser reports no network, else [ServerError] with
    the status and status text of a non-success response, else [Unknown]
    with the message of the failure. *)
Theorem failure_classified_in_order (remote : Remote) (w : World) :
  Spec.failed remote = true ->
  completion (sendMessage_settle (fetch_with_deadline remote).2) w
  = Thrown (Error (Spec.describe (Spec.classify remote (onLine w)))).
Proof.
  unfold Spec.failed, Spec.classify, Spec.cancelled_by_deadline,
    fetch_with_deadline.
  destruct remote as [|after r|after why]; cbn.
  - reflexivity.
  - rewrite N.ltb_antisym. destruct (timeout_ms <=? after); cbn; [reflexivity|].
    unfold sendMessage_settle. js_unfold. cbn.
    destruct (ok r); cbn.
    + destruct (body r) as [data|why]; cbn; [discriminate|].
      intros _. destruct (onLine w); reflexivity.
    + intros _. destruct (onLine w); reflexivity.
  - rewrite N.ltb_antisym. destruct (timeout_ms <=? after); cbn; [reflexivity|].
    intros _. unfold sendMessage_settle. js_unfold. cbn.
    destruct (onLine w); reflexivity.
Qed.

Lemma failure_classified_in_order_witness :
  completion
    (sendMessage_settle
       (fetch_with_deadline
          (Responds 120 {| status := 500;
                           statusText := str "Internal Server Error";
                           body := BadBody [] |})).2)
    (initial (fun _ _ => true) 0)
  = Thrown (Error (str "Server error: 500 Internal Server Error")).
Proof.
  apply (failure_classified_in_order
           (Responds 120 {| status := 500;
                            statusText := str "Internal Server Error";
                            body := BadBody [] |})
           (initial (fun _ _ => true) 0)).
  reflexivity.
Defined.

(** ** One send *)

Lemma truthy_nonempty (s : jsstring) : s <> [] -> truthy s = true.
Proof. destruct s; [congruence | reflexivity]. Qed.

(** [handleSendMessage] past its guard, up to the [await]. *)
Lemma handleSendMessage_begin_run (customMessage : option jsstring)
    (w : World) :
  let txt := default (inputValue w) customMessage in
  trim txt <> [] ->
  handleSendMessage_begin customMessage w =
  (Normal (Some {| messageToSend := txt;
                   sent_userRole := userRole w;
                   sent_soundEnabled := soundEnabled (chatSettings w) |}),
   exec (sendMessage_begin txt (userRole w))
     (exec (setInputValue [])
        (exec (setMessages
                 (Updater (fun prevMessages =>
                             prevMessages ++ [userMessage txt (clock w)])))
           w))).
Proof.
  intros txt Htxt. apply truthy_nonempty in Htxt.
  unfold handleSendMessage_begin, sendMessage_begin. js_unfold. cbn.
  replace (match customMessage with Some m => m | None => inputValue w end)
    with txt by (destruct customMessage; reflexivity).
  rewrite Htxt. cbn. unfold setMessages. rewrite setStoredValue_run. cbn.
  destruct (storageAccepts w _ _); reflexivity.
Qed.

(** The timeline, the busy flag, the requests and the rest of the state
    when [handleSendMessage] is suspended at its [await]. *)
Lemma handleSendMessage_begin_state (customMessage : option jsstring)
    (w : World) :
  let txt := default (inputValue w) customMessage in
  let w1 := exec (handleSendMessage_begin customMessage) w in
  trim txt <> [] ->
  messages w1 = messages w ++ [userMessage txt (clock w)] /\
  inputValue w1 = [] /\ isLoading w1 = true /\
  connectionStatus w1 = connecting /\
  userRole w1 = userRole w /\ chatSettings w1 = chatSettings w /\
  clock w1 = clock w /\ onLine w1 = onLine w /\
  storageAccepts w1 = storageAccepts w /\
  toasts w1 = toasts w /\
  requests w1 = requests w ++ [{| req_message := trim txt;
                                  req_role := userRole w;
                                  req_timestamp := clock w |}].
Proof.
  intros txt w1 Htxt.
  assert (Hw1 : w1 = (handleSendMessage_begin customMessage w).2)
    by reflexivity.
  rewrite (handleSendMessage_begin_run customMessage w Htxt) in Hw1.
  fold txt in Hw1. rewrite Hw1. clear Hw1 w1.
  unfold sendMessage_begin, setMessages. js_run.
  destruct (storageAccepts w _ _); cbn; unfold toasts, requests; cbn;
    rewrite ?omap_app; cbn; rewrite ?app_nil_r; repeat split; reflexivity.
Qed.

(** [handleSendMessage] from the moment its exchange settles: it completes
    normally, clears the busy flag, keeps role, settings and pending input,
    sends nothing, and appends one entry to the timeline: the reply, with a
    notification when the reply names a role other than the one the handler
    closed over, or the error entry, with an error notification. *)
Lemma handleSendMessage_settle_state (p : Pending) (outcome : FetchOutcome)
    (w : World) :
  let w' := exec (handleSendMessage_settle p outcome) w in
  completion (handleSendMessage_settle p outcome) w = Normal tt /\
  isLoading w' = false /\ userRole w' = userRole w /\
  chatSettings w' = chatSettings w /\ inputValue w' = inputValue w /\
  clock w' = clock w /\ requests w' = requests w /\
  connectionStatus w' = connectionStatus (exec (sendMessage_settle outcome) w) /\
  match completion (sendMessage_settle outcome) w with
  | Normal botResponse =>
      messages w' = messages w ++ [botMessage botResponse] /\
      toasts w' = toasts w ++
        (if truthy_opt (reply_role botResponse)
            && negb (strict_eqb (reply_role botResponse) (sent_userRole p))
         then [(info, str "Detected context: "
                        ++ default [] (reply_role botResponse))]
         else [])
  | Thrown err =>
      messages w' = messages w ++ [errorMessage err (clock w)] /\
      toasts w' = toasts w ++ [(toast_error, message err)]
  end.
Proof.
  unfold handleSendMessage_settle, sendMessage_settle, playNotificationSound,
    toast.
  js_run.
  destruct outcome as [r|e]; cbn;
    [destruct (ok r); cbn; [destruct (body r) as [data|why]; cbn|]|];
    repeat match goal with
      | |- context [if eqb_str ?a ?b then _ else _] =>
          destruct (eqb_str a b); cbn
      | |- context [if negb (onLine w) then _ else _] =>
          destruct (onLine w); cbn
      | |- context [setStoredValue ?s ?a ?x] =>
          rewrite (setStoredValue_run s a x); cbn
      | |- context [if storageAccepts w ?k ?i then _ else _] =>
          destruct (storageAccepts w k i); cbn
      | |- context [if sent_soundEnabled p then _ else _] =>
          destruct (sent_soundEnabled p); cbn
      | |- context [if ?a && ?b then _ else _] =>
          destruct (a && b); cbn
      end;
    unfold toasts, requests; cbn; rewrite ?omap_app; cbn;
    rewrite ?app_nil_r; repeat split; reflexivity.
Qed.

(** A send past the guard is the two parts of the handler with the time the
    request takes in between. *)
Lemma send_run (customMessage : option jsstring) (remote : Remote)
    (w : World) :
  let txt := default (inputValue w) customMessage in
  trim txt <> [] ->
  send customMessage remote w =
  handleSendMessage_settle
    {| messageToSend := txt; sent_userRole := userRole w;
       sent_soundEnabled := soundEnabled (chatSettings w) |}
    (fetch_with_deadline remote).2
    (elapse (fetch_with_deadline remote).1
       (exec (handleSendMessage_begin customMessage) w)).
Proof.
  intros txt Htxt. unfold send, exec.
  rewrite bind_run, (handleSendMessage_begin_run customMessage w Htxt).
  destruct (fetch_with_deadline remote) as [ms outcome]. reflexivity.
Qed.

(** A send appends with an updater function, whose [JSON.stringify] is
    [undefined]: every write it attempts stores that text, not the
    timeline. *)
Lemma send_writes_undefined (customMessage : option jsstring)
    (remote : Remote) (w : World) :
  let txt := default (inputValue w) customMessage in
  trim txt <> [] ->
  writes (exec (send customMessage remote) w)
  = writes w ++ [("chatMessages", TextUndefined);
                 ("chatMessages", TextUndefined)].
Proof.
  intros txt Htxt. unfold exec at 1. rewrite (send_run _ _ _ Htxt).
  unfold exec. rewrite (handleSendMessage_begin_run _ _ Htxt).
  fold txt.
  unfold handleSendMessage_settle, sendMessage_settle, sendMessage_begin,
    playNotificationSound, toast.
  js_run.
  destruct (fetch_with_deadline remote).2 as [r|e]; cbn;
    [destruct (ok r); cbn; [destruct (body r) as [data|why]; cbn|]|];
    repeat match goal with
      | |- context [if eqb_str ?a ?b then _ else _] =>
          destruct (eqb_str a b); cbn
      | |- context [if negb (onLine w) then _ else _] =>
          destruct (onLine w); cbn
      | |- context [setStoredValue ?s ?a ?x] =>
          rewrite (setStoredValue_run s a x); cbn
      | |- context [if storageAccepts w ?k ?i then _ else _] =>
          destruct (storageAccepts w k i); cbn
      | |- context [if soundEnabled (chatSettings w) then _ else _] =>
          destruct (soundEnabled (chatSettings w)); cbn
      | |- context [if ?a && ?b then _ else _] =>
          destruct (a && b); cbn
      end;
    unfold writes; cbn; rewrite ?omap_app; cbn;
    rewrite ?app_nil_r, <- ?app_assoc; reflexivity.
Qed.

(** C3.  When the remote never responds, the request settles 30000 ms
    after it was issued, by being aborted, and [sendMessage] throws the
    error of the [Timeout] kind.  For a send of a text that does not trim
    to nothing this means: the busy flag, set while the request is pending,
    is false once the handler has finished, 30000 ms later; the timeline
    has gained the user's entry and one error entry, carrying the timeout
    description, and no other error entry. *)
Theorem timeout_after_30_seconds (customMessage : option jsstring)
    (w : World) :
  let txt := default (inputValue w) customMessage in
  let timed_out := Error (Spec.describe Spec.Timeout) in
  let w1 := exec (handleSendMessage_begin customMessage) w in
  let w' := exec (send customMessage NeverResponds) w in
  trim txt <> [] ->
  fetch_with_deadline NeverResponds = (30000, Rejected AbortError) /\
  completion (sendMessage_settle (Rejected AbortError)) (elapse 30000 w1)
  = Thrown timed_out /\
  isLoading w1 = true /\
  isLoading w' = false /\
  clock w' = clock w + 30000 /\
  messages w' = messages w ++ [userMessage txt (clock w);
                               errorMessage timed_out (clock w + 30000)] /\
  errors (messages w') = errors (messages w)
                         ++ [errorMessage timed_out (clock w + 30000)].
Proof.
  intros txt timed_out w1 w' Htxt.
  destruct (handleSendMessage_begin_state customMessage w Htxt)
    as (Hmsgs & _ & Hbusy & _ & _ & _ & Hclock & _).
  fold w1 in Hmsgs, Hbusy, Hclock.
  assert (Hw' : w' = exec (handleSendMessage_settle
                             {| messageToSend := txt;
                                sent_userRole := userRole w;
                                sent_soundEnabled := soundEnabled (chatSettings w) |}
                             (Rejected AbortError)) (elapse 30000 w1)).
  { subst w'. unfold exec at 1. rewrite (send_run _ _ _ Htxt). reflexivity. }
  destruct (handleSendMessage_settle_state
              {| messageToSend := txt; sent_userRole := userRole w;
                 sent_soundEnabled := soundEnabled (chatSettings w) |}
              (Rejected AbortError) (elapse 30000 w1))
    as (_ & Hidle & _ & _ & _ & Hclock' & _ & _ & Hout).
  rewrite <- Hw' in Hidle, Hclock', Hout.
  unfold completion in Hout. rewrite sendMessage_settle_aborted in Hout.
  cbn in Hout. destruct Hout as [Hmsgs' _].
  rewrite Hmsgs, Hclock, <- app_assoc in Hmsgs'. cbn in Hmsgs'.
  repeat split.
  - exact Hbusy.
  - exact Hidle.
  - rewrite Hclock'. cbn. rewrite Hclock. reflexivity.
  - exact Hmsgs'.
  - rewrite Hmsgs'. unfold errors. rewrite List.filter_app. reflexivity.
Qed.

Lemma timeout_after_30_seconds_witness :
  let w := initial (fun _ _ => true) 1000 in
  let w' := exec (send (Some (str " Hi ")) NeverResponds) w in
  isLoading w' = false /\ clock w' = 31000 /\
  errors (messages w')
  = [errorMessage (Error (str "Request timed out. Please try again.")) 31000].
Proof.
  pose proof (timeout_after_30_seconds (Some (str " Hi "))
                (initial (fun _ _ => true) 1000)) as H.
  cbv zeta in H.
  destruct H as (_ & _ & _ & Hidle & Hclock & _ & Herr);
    [discriminate|].
  split; [exact Hidle|]. split; [exact Hclock|]. exact Herr.
Defined.

(** C6.  A send of a text that does not trim to nothing gets past the
    guard; when the handler is suspended on its request the timeline has
    gained exactly the user's entry, whose text is the input as given,
    while the one request issued carries the trimmed text.  Whatever the
    remote then does, the finished send has added that user entry and one
    entry of the assistant after it, so exactly one user entry. *)
Theorem user_message_committed (customMessage : option jsstring)
    (w : World) :
  let txt := default (inputValue w) customMessage in
  let w1 := exec (handleSendMessage_begin customMessage) w in
  trim txt <> [] ->
  (exists p, completion (handleSendMessage_begin customMessage) w
             = Normal (Some p)) /\
  messages w1 = messages w ++ [userMessage txt (clock w)] /\
  text (userMessage txt (clock w)) = txt /\
  sender (userMessage txt (clock w)) = user /\
  requests w1 = requests w ++ [{| req_message := trim txt;
                                  req_role := userRole w;
                                  req_timestamp := clock w |}] /\
  forall remote,
    let w' := exec (send customMessage remote) w in
    (exists answer,
       sender answer = bot /\
       messages w' = messages w ++ [userMessage txt (clock w); answer]) /\
    from_user (messages w')
    = from_user (messages w) ++ [userMessage txt (clock w)].
Proof.
  intros txt w1 Htxt.
  destruct (handleSendMessage_begin_state customMessage w Htxt)
    as (Hmsgs & _ & _ & _ & _ & _ & _ & _ & _ & _ & Hreq).
  fold w1 in Hmsgs, Hreq.
  split.
  { unfold completion.
    rewrite (handleSendMessage_begin_run customMessage w Htxt). eauto. }
  split; [exact Hmsgs|]. split; [reflexivity|]. split; [reflexivity|].
  split; [exact Hreq|].
  intros remote w'.
  assert (Hanswer : exists answer, sender answer = bot /\
            messages w' = messages w ++ [userMessage txt (clock w); answer]).
  { subst w'. unfold exec at 1. rewrite (send_run _ _ _ Htxt).
    fold txt w1.
    set (p := {| messageToSend := txt; sent_userRole := userRole w;
                 sent_soundEnabled := soundEnabled (chatSettings w) |}).
    set (outcome := (fetch_with_deadline remote).2).
    set (w2 := elapse (fetch_with_deadline remote).1 w1).
    destruct (handleSendMessage_settle_state p outcome w2)
      as (_ & _ & _ & _ & _ & _ & _ & _ & Hout).
    unfold exec in Hout.
    destruct (completion (sendMessage_settle outcome) w2) as [reply|err];
      destruct Hout as [Hout _]; rewrite Hout;
      change (messages w2) with (messages w1);
      rewrite Hmsgs, <- app_assoc;
      eexists; (split; [|reflexivity]); reflexivity. }
  split; [exact Hanswer|].
  destruct Hanswer as (answer & Hbot & ->).
  unfold from_user. rewrite List.filter_app. cbn. rewrite Hbot. reflexivity.
Qed.

Lemma user_message_committed_witness :
  let w := initial (fun _ _ => false) 7 in
  messages (exec (handleSendMessage_begin (Some (str "  Hello  "))) w)
  = [userMessage (str "  Hello  ") 7] /\
  requests (exec (handleSendMessage_begin (Some (str "  Hello  "))) w)
  = [{| req_message := str "Hello"; req_role := None; req_timestamp := 7 |}].
Proof.
  pose proof (user_message_committed (Some (str "  Hello  "))
                (initial (fun _ _ => false) 7)) as H.
  cbv zeta in H.
  destruct H as (_ & Hm & _ & _ & Hr & _); [discriminate|].
  split; [exact Hm | exact Hr].
Defined.

(** The notification of [handleSendMessage] after a successful exchange:
    it is raised exactly when the reply names a role (a non-empty string)
    and that role is not the [userRole] the handler closed over; the
    [userRole] is not changed. *)
Lemma context_notification_needs_named_role
    (customMessage : option jsstring) (after : N) (r : Response)
    (data : Payload) (w : World) :
  let txt := default (inputValue w) customMessage in
  let w' := exec (send customMessage (Responds after r)) w in
  let detected := data_detected_role data in
  trim txt <> [] -> after < timeout_ms -> ok r = true ->
  body r = JsonBody data ->
  toasts w' = toasts w ++
    (if truthy_opt detected && negb (strict_eqb detected (userRole w))
     then [(info, str "Detected context: " ++ default [] detected)]
     else []) /\
  (toasts w' <> toasts w <->
   exists d, detected = Some d /\ d <> [] /\ userRole w <> Some d) /\
  userRole w' = userRole w.
Proof.
  intros txt w' detected Htxt Hafter Hok Hbody.
  destruct (handleSendMessage_begin_state customMessage w Htxt)
    as (_ & _ & _ & _ & Hrole & _ & _ & _ & _ & Htoasts & _).
  set (w1 := exec (handleSendMessage_begin customMessage) w) in *.
  set (p := {| messageToSend := txt; sent_userRole := userRole w;
               sent_soundEnabled := soundEnabled (chatSettings w) |}).
  assert (Hw' : w' = exec (handleSendMessage_settle p (Fulfilled r))
                       (elapse after w1)).
  { subst w'. unfold exec at 1. rewrite (send_run _ _ _ Htxt).
    unfold fetch_with_deadline.
    apply N.ltb_lt in Hafter. rewrite Hafter. reflexivity. }
  destruct (handleSendMessage_settle_state p (Fulfilled r) (elapse after w1))
    as (_ & _ & Hrole' & _ & _ & _ & _ & _ & Hout).
  rewrite <- Hw' in Hrole', Hout.
  assert (Hreply : completion (sendMessage_settle (Fulfilled r))
                     (elapse after w1)
                   = Normal {| reply_text := data_response data;
                               reply_role := detected;
                               reply_confidence :=
                                 confidence_or_null (data_confidence data);
                               reply_timestamp := clock w1 + after |}).
  { unfold sendMessage_settle. js_unfold. cbn. rewrite Hok. cbn.
    rewrite Hbody. reflexivity. }
  rewrite Hreply in Hout. cbv beta iota in Hout. cbn [reply_role] in Hout.
  destruct Hout as [_ Hout]. change (sent_userRole p) with (userRole w) in Hout.
  change (toasts (elapse after w1)) with (toasts w1) in Hout.
  rewrite Htoasts in Hout.
  split; [exact Hout|]. split.
  - rewrite Hout. destruct detected as [[|c d]|]; cbn [truthy_opt truthy andb].
    + rewrite app_nil_r. split; [congruence|].
      intros (d & [= <-] & Hd & _). congruence.
    + destruct (strict_eqb _ (userRole w)) eqn:Heq; cbn [negb].
      * apply strict_eqb_eq in Heq. rewrite app_nil_r. split; [congruence|].
        intros (d' & [= <-] & _ & Hne). congruence.
      * split.
        -- intros _. exists (c :: d). repeat split; [discriminate|].
           intros Hsame. symmetry in Hsame. apply strict_eqb_eq in Hsame.
           congruence.
        -- intros _ Hsame. apply (f_equal List.length) in Hsame.
           rewrite List.length_app in Hsame. cbn in Hsame. lia.
    + rewrite app_nil_r. split; [congruence|].
      intros (d & [=] & _).
  - rewrite Hrole'. exact Hrole.
Qed.

Lemma context_notification_needs_named_role_witness :
  let w := exec (setUserRole (Value (Some (str "student"))))
             (initial (fun _ _ => true) 0) in
  let r := {| status := 200; statusText := str "OK";
              body := JsonBody {| data_response := str "Hi!";
                                  data_detected_role := Some (str "parent");
                                  data_confidence := Some (9 # 10) |} |} in
  toasts (exec (send (Some (str "  Hello  ")) (Responds 100 r)) w)
  = [(info, str "Detected context: parent")].
Proof.
  intros w r.
  pose proof (context_notification_needs_named_role
                (Some (str "  Hello  ")) 100 r
                {| data_response := str "Hi!";
                   data_detected_role := Some (str "parent");
                   data_confidence := Some (9 # 10) |} w) as H.
  cbv zeta in H.
  destruct H as (Ht & _ & _);
    [discriminate | reflexivity | reflexivity | reflexivity |].
  exact Ht.
Defined.

(** C9, as the claim words it, fails: the session's role is [student], the
    reply names no role, so the two differ, and no notification is
    raised. *)
Lemma absent_role_raises_no_notification :
  let w := exec (setUserRole (Value (Some (str "student"))))
             (initial (fun _ _ => true) 0) in
  let data := {| data_response := str "Hi!";
                 data_detected_role := None;
                 data_confidence := None |} in
  let r := {| status := 200; statusText := str "OK";
              body := JsonBody data |} in
  let w' := exec (send (Some (str "Hello")) (Responds 100 r)) w in
  ~ (toasts w' <> toasts w <-> data_detected_role data <> userRole w).
Proof.
  intros w data r w' [_ H]. apply H; [discriminate | reflexivity].
Qed.

(** C9, as the code has it, where the role selected in the dialog is the
    role the session holds.  After a click on the send button and a
    successful exchange, a context-detected notification is raised exactly
    when the reply names a role (a non-empty string) and that role is not
    the selected one; a reply without a role raises none, whatever role is
    selected.  Neither the selection nor the role of the session is
    changed. *)
Theorem context_notification_for_selected_role (d : ChatDialog.State)
    (after : N) (r : Response) (data : Payload) (w : World) :
  let selected := ChatDialog.roleType <$> ChatDialog.role d in
  let w' := exec (ChatDialogView.sendButton_send d (Responds after r)) w in
  let detected := data_detected_role data in
  selected = userRole w ->
  isLoading w = false -> trim (inputValue w) <> [] ->
  after < timeout_ms -> ok r = true -> body r = JsonBody data ->
  toasts w' = toasts w ++
    (if truthy_opt detected && negb (strict_eqb detected selected)
     then [(info, str "Detected context: " ++ default [] detected)]
     else []) /\
  (toasts w' <> toasts w <->
   exists named, detected = Some named /\ named <> [] /\
                 selected <> Some named) /\
  userRole w' = userRole w /\
  ChatDialog.roleType <$> ChatDialog.role d = userRole w'.
Proof.
  intros selected w' detected Hsame Hidle Htxt Hafter Hok Hbody.
  assert (Hsend : ChatDialogView.sendButton_send d (Responds after r) w
                  = send (Some (inputValue w)) (Responds after r) w).
  { unfold ChatDialogView.sendButton_send, send,
      ChatDialog.sendButton_onClick, ChatDialog.onSendMessage.
    rewrite !bind_run. unfold read at 1. cbv iota beta.
    rewrite bind_run. unfold read at 1. cbv iota beta. rewrite Hidle.
    destruct (eqb_str (trim (inputValue w)) []) eqn:Hblank.
    - apply eqb_str_eq in Hblank. contradiction.
    - reflexivity. }
  destruct (context_notification_needs_named_role (Some (inputValue w))
              after r data w Htxt Hafter Hok Hbody) as (Ht & Hiff & Hrole).
  unfold w', exec. rewrite Hsend. fold detected in Ht, Hiff.
  unfold exec in Ht, Hiff, Hrole. rewrite Hsame.
  split; [exact Ht|]. split; [exact Hiff|]. split; [exact Hrole|].
  rewrite Hrole. exact Hsame.
Qed.

Lemma context_notification_for_selected_role_witness :
  let w := exec (handleInputChange (str "  Hello  "))
             (exec (setUserRole (Value (Some (str "student"))))
                (initial (fun _ _ => true) 0)) in
  let d := {| ChatDialog.role := Some ChatDialog.student;
              ChatDialog.isMinimized := false;
              ChatDialog.showQuickReplies := true |} in
  let r := {| status := 200; statusText := str "OK";
              body := JsonBody {| data_response := str "Hi!";
                                  data_detected_role := Some (str "parent");
                                  data_confidence := Some (9 # 10) |} |} in
  toasts (exec (ChatDialogView.sendButton_send d (Responds 100 r)) w)
  = [(info, str "Detected context: parent")].
Proof.
  intros w d r.
  pose proof (context_notification_for_selected_role d 100 r
                {| data_response := str "Hi!";
                   data_detected_role := Some (str "parent");
                   data_confidence := Some (9 # 10) |} w) as H.
  cbv zeta in H.
  destruct H as (Ht & _);
    [reflexivity | reflexivity | discriminate | reflexivity | reflexivity
    | reflexivity |].
  exact Ht.
Defined.

(** ** The dialog *)

(** The send button hands the dialog's role to a function that has no
    parameter for it: what is sent does not depend on that role. *)
Lemma sendButton_ignores_dialog_role (d : ChatDialog.State) (w : World) :
  ChatDialog.sendButton_onClick d w
  = ChatDialog.sendButton_onClick (ChatDialog.changeRole d) w.
Proof. reflexivity. Qed.

(** C1, at a failing input.  On a freshly mounted widget with nothing in
    storage the user opens the dialog, picks the role [student] in it,
    types [Hello] and clicks the send button.  The dialog's role is
    [student]; the one request issued carries the trimmed text and the
    role [null], the [userRole] of [App]. *)
Theorem dialog_role_is_not_transmitted :
  let w0 := exec toggleChatDialog (initial (fun _ _ => true) 0) in
  let picked :=
    ChatDialog.handleRoleSelect ChatDialog.student ChatDialog.mounted w0 in
  let typed := exec (handleInputChange (str "Hello")) picked.2 in
  exists d,
    picked.1 = Normal d /\
    ChatDialog.roleType <$> ChatDialog.role d = Some (str "student") /\
    userRole typed = None /\
    requests (exec (ChatDialog.sendButton_onClick d) typed)
    = [{| req_message := str "Hello"; req_role := None; req_timestamp := 0 |}].
Proof.
  cbv zeta. eexists. split; [reflexivity|]. repeat split.
Qed.

(** * Further properties *)

(** ** Trimming *)

Lemma trimStart_blank (s : jsstring) :
  trimStart s = [] <-> forallb isWhiteSpace s = true.
Proof.
  induction s as [|c s IH]; simpl; [easy|].
  destruct (isWhiteSpace c); simpl; [exact IH | easy].
Qed.

Lemma trimStart_head (s : jsstring) (c : N) (rest : jsstring) :
  trimStart s = c :: rest -> isWhiteSpace c = false.
Proof.
  induction s as [|x s IH]; simpl; [discriminate|].
  destruct (isWhiteSpace x) eqn:Hx; [exact IH|].
  intros [= <- _]. exact Hx.
Qed.

Lemma trimStart_kept (c : N) (s : jsstring) :
  isWhiteSpace c = false -> trimStart (c :: s) = c :: s.
Proof. intros H. simpl. rewrite H. reflexivity. Qed.

Lemma trimStart_idempotent (s : jsstring) :
  trimStart (trimStart s) = trimStart s.
Proof.
  destruct (trimStart s) as [|c rest] eqn:E; [reflexivity|].
  apply trimStart_kept. exact (trimStart_head _ _ _ E).
Qed.

Lemma trimStart_snoc (s : jsstring) (c : N) :
  isWhiteSpace c = false -> trimStart (s ++ [c]) = trimStart s ++ [c].
Proof.
  intros Hc. induction s as [|x s IH]; simpl.
  - rewrite Hc. reflexivity.
  - destruct (isWhiteSpace x); [exact IH | reflexivity].
Qed.

Lemma forallb_reverse {A} (f : A -> bool) (l : list A) :
  forallb f (rev l) = forallb f l.
Proof.
  induction l as [|x l IH]; simpl; [reflexivity|].
  rewrite forallb_app, IH. simpl. rewrite andb_true_r. apply andb_comm.
Qed.

Lemma trimEnd_blank (s : jsstring) :
  trimEnd s = [] <-> forallb isWhiteSpace s = true.
Proof.
  unfold trimEnd. rewrite <- (forallb_reverse isWhiteSpace s), <- trimStart_blank.
  split; intros H.
  - apply (f_equal (@rev N)) in H. rewrite rev_involutive in H. exact H.
  - rewrite H. reflexivity.
Qed.

Lemma trimEnd_cons (c : N) (s : jsstring) :
  isWhiteSpace c = false -> trimEnd (c :: s) = c :: trimEnd s.
Proof.
  intros Hc. unfold trimEnd. simpl rev at 2.
  rewrite (trimStart_snoc _ _ Hc), rev_app_distr. reflexivity.
Qed.

Lemma trimEnd_idempotent (s : jsstring) : trimEnd (trimEnd s) = trimEnd s.
Proof.
  unfold trimEnd. rewrite rev_involutive, trimStart_idempotent. reflexivity.
Qed.

Lemma trimEnd_last (s : jsstring) (c : N) :
  last (trimEnd s) = Some c -> isWhiteSpace c = false.
Proof.
  unfold trimEnd.
  destruct (trimStart (rev s)) as [|x rest] eqn:E; simpl; [discriminate|].
  rewrite last_snoc. intros [= <-]. exact (trimStart_head _ _ _ E).
Qed.

(** A text trims to the empty string exactly when it is made of white
    space only. *)
Lemma trim_blank (s : jsstring) :
  trim s = [] <-> forallb isWhiteSpace s = true.
Proof.
  unfold trim. rewrite trimEnd_blank. split; intros H.
  - apply trimStart_blank.
    destruct (trimStart s) as [|c rest] eqn:E; [reflexivity|].
    pose proof (trimStart_head _ _ _ E) as Hc.
    simpl in H. rewrite Hc in H. discriminate.
  - apply trimStart_blank in H. rewrite H. reflexivity.
Qed.

Lemma trim_head (s : jsstring) (c : N) (rest : jsstring) :
  trim s = c :: rest -> isWhiteSpace c = false.
Proof.
  unfold trim. destruct (trimStart s) as [|x t] eqn:E.
  - discriminate.
  - pose proof (trimStart_head _ _ _ E) as Hx.
    rewrite (trimEnd_cons _ _ Hx). intros [= <- _]. exact Hx.
Qed.

Lemma trim_idempotent (s : jsstring) : trim (trim s) = trim s.
Proof.
  unfold trim. destruct (trimStart s) as [|x t] eqn:E; [reflexivity|].
  pose proof (trimStart_head _ _ _ E) as Hx.
  rewrite (trimEnd_cons _ _ Hx), (trimStart_kept _ _ Hx).
  rewrite <- (trimEnd_cons _ _ Hx). apply trimEnd_idempotent.
Qed.

(** ** The guard of a send *)

Lemma handleSendMessage_begin_blank (customMessage : option jsstring)
    (w : World) :
  trim (default (inputValue w) customMessage) = [] ->
  handleSendMessage_begin customMessage w = (Normal None, w).
Proof.
  intros Hblank. unfold handleSendMessage_begin. js_unfold.
  destruct customMessage as [m|];
    [change (trim m = []) in Hblank
    |change (trim (inputValue w) = []) in Hblank];
    rewrite Hblank; reflexivity.
Qed.

(** X1.  [handleSendMessage] returns at its guard, having done nothing,
    exactly when the text is made of white space only (the empty text
    included); and it is exactly then that no request goes out. *)
Theorem send_guard_is_whitespace_test (customMessage : option jsstring)
    (w : World) :
  let txt := default (inputValue w) customMessage in
  (handleSendMessage_begin customMessage w = (Normal None, w)
   <-> forallb isWhiteSpace txt = true) /\
  (requests (exec (handleSendMessage_begin customMessage) w) = requests w
   <-> forallb isWhiteSpace txt = true).
Proof.
  intros txt. rewrite <- (trim_blank txt).
  destruct (trim txt) as [|c rest] eqn:Htrim.
  - pose proof (handleSendMessage_begin_blank customMessage w Htrim) as Hrun.
    unfold exec. rewrite Hrun. easy.
  - assert (Hne : trim txt <> []) by (rewrite Htrim; discriminate).
    destruct (handleSendMessage_begin_state customMessage w Hne)
      as (_ & _ & _ & _ & _ & _ & _ & _ & _ & _ & Hreq).
    split; (split; [|discriminate]); intros H; exfalso.
    + rewrite (handleSendMessage_begin_run customMessage w Hne) in H.
      discriminate.
    + rewrite Hreq in H. apply (f_equal List.length) in H.
      rewrite List.length_app in H. simpl in H. lia.
Qed.

Lemma trim_tidy (txt : jsstring) (r : option jsstring) (now : N) :
  trim txt <> [] ->
  tidy {| req_message := trim txt; req_role := r; req_timestamp := now |}.
Proof.
  intros Hne. repeat split; simpl.
  - exact Hne.
  - apply trim_idempotent.
  - intros c rest. apply trim_head.
  - intros c. unfold trim. apply trimEnd_last.
Qed.

(** ** One step of the machine *)

(** Splits on everything a handler tests, running the store as it goes. *)
Ltac js_cases w :=
  repeat match goal with
    | |- context [setStoredValue ?s ?a ?x] =>
        rewrite (setStoredValue_run s a x); cbn
    | |- context [if storageAccepts w ?k ?i then _ else _] =>
        destruct (storageAccepts w k i); cbn
    | |- context [if eqb_str ?a ?b then _ else _] =>
        destruct (eqb_str a b); cbn
    | |- context [if negb (onLine w) then _ else _] =>
        destruct (onLine w); cbn
    | |- context [onLine w] => destruct (onLine w); cbn
    | |- context [if isOpen w then _ else _] => destruct (isOpen w); cbn
    | |- context [if negb (isOpen w) then _ else _] => destruct (isOpen w); cbn
    | |- context [isOpen w && _] => destruct (isOpen w); cbn
    | |- context [_ && isOpen w] => destruct (isOpen w); cbn
    | |- context [match messages w with _ => _ end] =>
        destruct (messages w); cbn
    | |- context [if soundEnabled (chatSettings w) then _ else _] =>
        destruct (soundEnabled (chatSettings w)); cbn
    | |- context [if sent_soundEnabled ?p then _ else _] =>
        destruct (sent_soundEnabled p); cbn
    | |- context [if ?a && ?b then _ else _] => destruct (a && b); cbn
    | |- context [if ?b then _ else _] => destruct b; cbn
    end.

Ltac observe :=
  unfold requests, toasts, writes, warnings, sounds; cbn;
  rewrite ?omap_app, ?List.filter_app; cbn; rewrite ?app_nil_r.

Lemma exec_then_unit {A} (m : Js A) (w : World) :
  exec (m;; mret tt) w = exec m w.
Proof. unfold exec. rewrite bind_run. destruct (m w) as [[a|e] w']; reflexivity. Qed.

Lemma perform_KeyPress (pressed : jsstring) (shiftKey : bool) (w : World) :
  exec (perform (KeyPress pressed shiftKey)) w =
  if eqb_str pressed (str "Enter") && negb shiftKey
  then exec (handleSendMessage_begin None) w else w.
Proof.
  cbn [perform]. rewrite exec_then_unit. unfold handleKeyPress.
  destruct (eqb_str pressed (str "Enter") && negb shiftKey); reflexivity.
Qed.

(** What a step leaves alone. *)
Lemma perform_frame (a : Action) (w : World) :
  let w' := exec (perform a) w in
  storageAccepts w' = storageAccepts w /\
  clock w' = clock w + match a with Wait ms => ms | _ => 0 end /\
  (is_exchange a = false -> connectionStatus w' = connectionStatus w /\
                            isLoading w' = isLoading w /\
                            requests w' = requests w).
Proof.
  destruct a; cbn [is_exchange]; rewrite ?perform_KeyPress; cbn [perform].
  - unfold toggleChatDialog. js_run. js_cases w; observe;
      rewrite ?N.add_0_r; repeat split; reflexivity.
  - cbn. rewrite N.add_0_r. repeat split; reflexivity.
  - unfold handleClickOutside. js_run. destruct target; js_cases w;
      rewrite ?N.add_0_r; repeat split; reflexivity.
  - unfold handleEscapeKey. js_run. js_cases w;
      rewrite ?N.add_0_r; repeat split; reflexivity.
  - unfold network, handleOnline, handleOffline, toast. js_run.
    destruct up; cbn; observe; rewrite ?N.add_0_r; repeat split; reflexivity.
  - rewrite exec_then_unit.
    destruct (trim (default (inputValue w) customMessage)) as [|c rest] eqn:Ht.
    + unfold exec. rewrite (handleSendMessage_begin_blank _ _ Ht).
      cbn. rewrite N.add_0_r. repeat split; discriminate.
    + assert (Hne : trim (default (inputValue w) customMessage) <> [])
        by (rewrite Ht; discriminate).
      destruct (handleSendMessage_begin_state customMessage w Hne)
        as (_ & _ & _ & _ & _ & _ & Hclock & _ & Hacc & _).
      rewrite Hclock, Hacc, N.add_0_r. repeat split; discriminate.
  - destruct (eqb_str pressed (str "Enter") && negb shiftKey);
      [|cbn; rewrite N.add_0_r; repeat split; reflexivity].
    destruct (trim (default (inputValue w) None)) as [|c rest] eqn:Ht.
    + unfold exec. rewrite (handleSendMessage_begin_blank _ _ Ht).
      cbn. rewrite N.add_0_r. repeat split; discriminate.
    + assert (Hne : trim (default (inputValue w) None) <> [])
        by (rewrite Ht; discriminate).
      destruct (handleSendMessage_begin_state None w Hne)
        as (_ & _ & _ & _ & _ & _ & Hclock & _ & Hacc & _).
      rewrite Hclock, Hacc, N.add_0_r. repeat split; discriminate.
  - destruct (handleSendMessage_settle_state p outcome w)
      as (_ & _ & _ & _ & _ & Hclock & _).
    rewrite Hclock, N.add_0_r. split; [|split; [reflexivity|discriminate]].
    unfold handleSendMessage_settle, sendMessage_settle,
      playNotificationSound, toast. js_run.
    destruct outcome as [r|e]; cbn;
      [destruct (ok r); cbn; [destruct (body r); cbn|]|];
      js_cases w; reflexivity.
  - unfold clearChatHistory, toast. js_run. js_cases w; observe;
      rewrite ?N.add_0_r; repeat split; reflexivity.
  - unfold exportChatHistory, toast. js_run. observe.
    rewrite N.add_0_r. repeat split; reflexivity.
  - destruct (setStoredValue_frame UserRole a w)
      as (_ & _ & Hl & Hc & Ha & _ & Hk & Hr & _).
    unfold setUserRole. rewrite Ha, Hk, N.add_0_r. auto.
  - destruct (setStoredValue_frame ChatSettings a w)
      as (_ & _ & Hl & Hc & Ha & _ & Hk & Hr & _).
    unfold setChatSettings. rewrite Ha, Hk, N.add_0_r. auto.
  - cbn. repeat split; reflexivity.
Qed.

Lemma sendMessage_settle_timestamp (outcome : FetchOutcome) (w : World)
    (botResponse : Reply) :
  completion (sendMessage_settle outcome) w = Normal botResponse ->
  reply_timestamp botResponse = clock w.
Proof.
  unfold sendMessage_settle. js_run.
  destruct outcome as [r|e]; cbn;
    [destruct (ok r); cbn; [destruct (body r); cbn|]|];
    js_cases w; try discriminate.
  intros [= <-]. reflexivity.
Qed.

(** Every error [sendMessage] throws has a message. *)
Lemma sendMessage_settle_message (outcome : FetchOutcome) (w : World)
    (err : JsError) :
  completion (sendMessage_settle outcome) w = Thrown err ->
  message err <> [].
Proof.
  unfold sendMessage_settle. js_run.
  destruct outcome as [r|e]; cbn;
    [destruct (ok r); cbn; [destruct (body r) as [d|why]; cbn|]|];
    js_cases w; try discriminate; intros [= <-]; cbn;
    try discriminate;
    match goal with
    | |- or_else ?m _ <> [] => destruct m; discriminate
    end.
Qed.

(** A step appends to the timeline, entries stamped with the time of the
    step, or, for a clear, empties it. *)
Lemma perform_messages (a : Action) (w : World) :
  exists suffix,
    messages (exec (perform a) w)
    = (if is_clear a then [] else messages w) ++ suffix /\
    Forall (fun m => timestamp m = clock w) suffix.
Proof.
  assert (Hsame : forall w', messages w' = messages w ->
            exists suffix, messages w' = messages w ++ suffix /\
              Forall (fun m => timestamp m = clock w) suffix).
  { intros w' ->. exists []. rewrite app_nil_r. auto. }
  assert (Hbegin : forall customMessage, exists suffix,
            messages (exec (handleSendMessage_begin customMessage) w)
            = messages w ++ suffix /\
            Forall (fun m => timestamp m = clock w) suffix).
  { intros customMessage.
    destruct (trim (default (inputValue w) customMessage)) as [|c rest] eqn:Ht.
    - apply Hsame. unfold exec.
      rewrite (handleSendMessage_begin_blank _ _ Ht). reflexivity.
    - assert (Hne : trim (default (inputValue w) customMessage) <> [])
        by (rewrite Ht; discriminate).
      destruct (handleSendMessage_begin_state customMessage w Hne) as (Hm & _).
      eexists. split; [exact Hm|]. repeat constructor. }
  destruct a; cbn [is_clear]; rewrite ?perform_KeyPress; cbn [perform];
    rewrite ?exec_then_unit.
  - unfold toggleChatDialog. js_run.
    destruct (isOpen w); cbn; [apply Hsame; reflexivity|].
    destruct (messages w) as [|m ms] eqn:Hm; cbn.
    + rewrite setStoredValue_run. cbn.
      exists [welcomeMessage (clock w)].
      split; [destruct (storageAccepts w _ _); reflexivity|].
      repeat constructor.
    + exists []. rewrite app_nil_r. auto.
  - apply Hsame. reflexivity.
  - apply Hsame. unfold handleClickOutside. js_run.
    destruct target; js_cases w; reflexivity.
  - apply Hsame. unfold handleEscapeKey. js_run. js_cases w; reflexivity.
  - apply Hsame. destruct up; reflexivity.
  - apply Hbegin.
  - destruct (eqb_str pressed (str "Enter") && negb shiftKey);
      [apply Hbegin | apply Hsame; reflexivity].
  - destruct (handleSendMessage_settle_state p outcome w)
      as (_ & _ & _ & _ & _ & _ & _ & _ & Hout).
    destruct (completion (sendMessage_settle outcome) w) as [reply|err] eqn:Hc;
      destruct Hout as [Hout _]; eexists; (split; [exact Hout|]);
      repeat constructor.
    cbn. exact (sendMessage_settle_timestamp _ _ _ Hc).
  - exists []. split; [|constructor].
    unfold clearChatHistory, toast. js_run. js_cases w; reflexivity.
  - apply Hsame. reflexivity.
  - apply Hsame.
    apply (setStoredValue_others UserRole ChatMessages a w). discriminate.
  - apply Hsame.
    apply (setStoredValue_others ChatSettings ChatMessages a w). discriminate.
  - apply Hsame. reflexivity.
Qed.

(** A step sends at most one request, a tidy one. *)
Lemma perform_requests (a : Action) (w : World) :
  exists new,
    requests (exec (perform a) w) = requests w ++ new /\ Forall tidy new.
Proof.
  assert (Hbegin : forall customMessage, exists new,
            requests (exec (handleSendMessage_begin customMessage) w)
            = requests w ++ new /\ Forall tidy new).
  { intros customMessage.
    destruct (trim (default (inputValue w) customMessage)) as [|c rest] eqn:Ht.
    - exists []. unfold exec.
      rewrite (handleSendMessage_begin_blank _ _ Ht), app_nil_r. auto.
    - assert (Hne : trim (default (inputValue w) customMessage) <> [])
        by (rewrite Ht; discriminate).
      destruct (handleSendMessage_begin_state customMessage w Hne)
        as (_ & _ & _ & _ & _ & _ & _ & _ & _ & _ & Hreq).
      eexists. split; [exact Hreq|].
      constructor; [apply trim_tidy, Hne | constructor]. }
  destruct (is_exchange a) eqn:Hex.
  - destruct a; try discriminate; rewrite ?perform_KeyPress; cbn [perform];
      rewrite ?exec_then_unit.
    + apply Hbegin.
    + cbn [is_exchange] in Hex. rewrite Hex. apply Hbegin.
    + destruct (handleSendMessage_settle_state p outcome w)
        as (_ & _ & _ & _ & _ & _ & Hreq & _).
      exists []. rewrite app_nil_r. auto.
  - destruct (perform_frame a w) as (_ & _ & H).
    destruct (H Hex) as (_ & _ & Hreq).
    exists []. rewrite app_nil_r. auto.
Qed.

(** ** Runs of the machine *)

Lemma run_cons (a : Action) (actions : list Action) (w : World) :
  run (a :: actions) w = run actions (exec (perform a) w).
Proof. reflexivity. Qed.

(** X2.  Whatever happens to the widget, every request it sends carries a
    message that is not empty and has no white space at either end (it is
    its own trim). *)
Theorem every_request_is_tidy (actions : list Action) (w : World) :
  exists new,
    requests (run actions w) = requests w ++ new /\ Forall tidy new.
Proof.
  revert w. induction actions as [|a actions IH]; intros w.
  - exists []. rewrite app_nil_r. auto.
  - rewrite run_cons.
    destruct (perform_requests a w) as (new1 & Hreq1 & Htidy1).
    destruct (IH (exec (perform a) w)) as (new2 & Hreq2 & Htidy2).
    exists (new1 ++ new2). rewrite Hreq2, Hreq1, <- app_assoc.
    split; [reflexivity|]. apply Forall_app. auto.
Qed.

(** X3.  The timeline is append-only: as long as the history is not
    cleared, whatever happens leaves the timeline it started from as a
    prefix of the timeline it ends with. *)
Theorem timeline_is_append_only (actions : list Action) (w : World) :
  existsb is_clear actions = false ->
  exists suffix, messages (run actions w) = messages w ++ suffix.
Proof.
  revert w. induction actions as [|a actions IH]; intros w Hclear.
  - exists []. rewrite app_nil_r. reflexivity.
  - simpl in Hclear. apply orb_false_iff in Hclear as [Ha Hrest].
    rewrite run_cons.
    destruct (perform_messages a w) as (suffix1 & Hm1 & _).
    rewrite Ha in Hm1.
    destruct (IH (exec (perform a) w) Hrest) as (suffix2 & Hm2).
    exists (suffix1 ++ suffix2). rewrite Hm2, Hm1, <- app_assoc. reflexivity.
Qed.

Lemma timeline_is_append_only_witness :
  let w := exec (send (Some (str "Hello")) NeverResponds)
             (exec toggleChatDialog (initial (fun _ _ => true) 0)) in
  List.length (messages w) = 3%nat /\
  exists suffix,
    messages (run [Toggle; Toggle; InputChange (str "Hi"); SendMessage None;
                   Wait 40; EscapeKey (str "Escape"); Network false;
                   RoleChange (Value (Some (str "parent")))] w)
    = messages w ++ suffix.
Proof.
  intros w. split; [reflexivity|].
  apply (timeline_is_append_only
           [Toggle; Toggle; InputChange (str "Hi"); SendMessage None;
            Wait 40; EscapeKey (str "Escape"); Network false;
            RoleChange (Value (Some (str "parent")))] w).
  reflexivity.
Defined.

(** A run without an exchange leaves the assistant client alone. *)
Lemma run_without_exchange (actions : list Action) (w : World) :
  existsb is_exchange actions = false ->
  connectionStatus (run actions w) = connectionStatus w /\
  isLoading (run actions w) = isLoading w /\
  requests (run actions w) = requests w.
Proof.
  revert w. induction actions as [|a actions IH]; intros w Hex.
  - repeat split; reflexivity.
  - simpl in Hex. apply orb_false_iff in Hex as [Ha Hrest].
    rewrite run_cons.
    destruct (perform_frame a w) as (_ & _ & Hstep).
    destruct (Hstep Ha) as (Hc & Hl & Hr).
    destruct (IH (exec (perform a) w) Hrest) as (Hc' & Hl' & Hr').
    rewrite Hc', Hl', Hr', Hc, Hl, Hr. repeat split; reflexivity.
Qed.

(** X4.  Only an exchange touches the connection status: whatever else
    happens (typing and key presses other than Enter without Shift, the
    network coming back, toggling, clearing, time passing), the status,
    the error banner that shows it, and the busy flag stay as they are,
    and no request is sent. *)
Theorem connection_status_only_changes_on_exchange (actions : list Action)
    (w : World) :
  existsb is_exchange actions = false ->
  connectionStatus (run actions w) = connectionStatus w /\
  connectionErrorBanner (run actions w) = connectionErrorBanner w /\
  isLoading (run actions w) = isLoading w /\
  requests (run actions w) = requests w.
Proof.
  intros Hex.
  destruct (run_without_exchange actions w Hex) as (Hc & Hl & Hr).
  unfold connectionErrorBanner. rewrite Hc. repeat split; assumption.
Qed.

(** X5.  In a timeline whose entries are in the order of their time
    stamps and not from the future, they stay so whatever happens. *)
Theorem timeline_stays_chronological (actions : list Action) (w : World) :
  chronological w -> chronological (run actions w).
Proof.
  revert w. induction actions as [|a actions IH]; intros w Hw; [exact Hw|].
  rewrite run_cons. apply IH. clear IH.
  destruct Hw as [Horder Hpast].
  destruct (perform_messages a w) as (suffix & Hm & Hnow).
  destruct (perform_frame a w) as (_ & Hclock & _).
  assert (Hlater : clock w <= clock (exec (perform a) w))
    by (rewrite Hclock; lia).
  set (base := if is_clear a then [] else messages w) in *.
  assert (Hbase_order : forall i j x y, (i <= j)%nat ->
            base !! i = Some x -> base !! j = Some y ->
            timestamp x <= timestamp y).
  { subst base. destruct (is_clear a); [intros ? ? ? ? _ H; discriminate|].
    exact Horder. }
  assert (Hbase_past : Forall (fun m => timestamp m <= clock w) base).
  { subst base. destruct (is_clear a); [constructor | exact Hpast]. }
  rewrite Forall_forall in Hbase_past, Hnow.
  split.
  - rewrite Hm. intros i j x y Hij Hx Hy.
    apply lookup_app_Some in Hx as [Hx|[Hi Hx]];
      apply lookup_app_Some in Hy as [Hy|[Hj Hy]].
    + exact (Hbase_order i j x y Hij Hx Hy).
    + apply list_elem_of_lookup_2 in Hx, Hy.
      rewrite (Hnow y Hy). exact (Hbase_past x Hx).
    + apply lookup_lt_Some in Hy. lia.
    + apply list_elem_of_lookup_2 in Hx, Hy.
      rewrite (Hnow x Hx), (Hnow y Hy). lia.
  - rewrite Hm. apply Forall_app. split; apply Forall_forall; intros m Hin.
    + specialize (Hbase_past m Hin). lia.
    + rewrite (Hnow m Hin). exact Hlater.
Qed.

(** ** Loading from the persistent store *)

Lemma readable_insert {T} (s : Slot T) (a : SetStateAction T)
    (m : gmap string StoredText) :
  readable m -> readable (<[key s := stringify s a]> m).
Proof.
  intros Hm T' s' item. destruct (decide (key s = key s')) as [Heq|Hne].
  - rewrite Heq, lookup_insert_eq. intros [= <-].
    destruct s, s'; try discriminate Heq; destruct a; discriminate.
  - rewrite lookup_insert_ne by exact Hne. apply Hm.
Qed.

Lemma setStoredValue_storage {T} (s : Slot T) (a : SetStateAction T)
    (w : World) :
  localStorage (exec (setStoredValue s a) w) =
  if storageAccepts w (key s) (stringify s a)
  then <[key s := stringify s a]> (localStorage w) else localStorage w.
Proof.
  unfold exec. rewrite setStoredValue_run. cbn.
  destruct (storageAccepts w _ _), s; reflexivity.
Qed.

Lemma setStoredValue_readable {T} (s : Slot T) (a : SetStateAction T)
    (w : World) :
  readable (localStorage w) ->
  readable (localStorage (exec (setStoredValue s a) w)).
Proof.
  intros Hm. rewrite setStoredValue_storage.
  destruct (storageAccepts w _ _); [apply readable_insert|]; exact Hm.
Qed.

(** What the initializer of a slot does: it never throws and changes
    nothing; it logs a warning exactly when the stored text is not JSON. *)
Lemma initialValue_run {T} (s : Slot T) (defaultValue : T) (w : World) :
  (forall item, localStorage w !! key s = Some item ->
                JSON_parse s item <> None) ->
  initialValue s defaultValue w =
  (Normal (Some (hydrated s defaultValue (localStorage w))),
   match localStorage w !! key s with
   | Some TextUndefined =>
       exec (console_warn
               (str "Error reading localStorage key " ++ [34]
                  ++ str (key s) ++ [34] ++ str ":")) w
   | _ => w
   end).
Proof.
  intros Hread. unfold initialValue, hydrated, console_warn. js_unfold. cbn.
  destruct (localStorage w !! key s) as [item|] eqn:Hitem; [|reflexivity].
  specialize (Hread item eq_refl).
  destruct s, item; cbn in *; try reflexivity; congruence.
Qed.

(** X6.  Save and load round trip: once the browser has accepted the
    write of a value, the hook's initializer yields that value, whatever
    the default, without a warning and without changing anything. *)
Theorem load_after_save {T} (s : Slot T) (v defaultValue : T) (w : World) :
  storageAccepts w (key s) (stringify s (Value v)) = true ->
  let w' := exec (setStoredValue s (Value v)) w in
  initialValue s defaultValue w' = (Normal (Some v), w').
Proof.
  intros Hacc w'.
  assert (Hstored : localStorage w' !! key s = Some (stringify s (Value v))).
  { subst w'. rewrite setStoredValue_storage, Hacc. apply lookup_insert_eq. }
  rewrite initialValue_run.
  - unfold hydrated. rewrite Hstored. destruct s; reflexivity.
  - intros item. rewrite Hstored. intros [= <-]. destruct s; discriminate.
Qed.

Lemma load_after_save_witness :
  let w := exec (setStoredValue UserRole (Value (Some (str "parent"))))
             (initial (fun _ _ => true) 0) in
  initialValue UserRole None w = (Normal (Some (Some (str "parent"))), w).
Proof.
  apply (load_after_save UserRole (Some (str "parent")) None
           (initial (fun _ _ => true) 0)).
  reflexivity.
Defined.

(** X7.  What the initializer falls back on.  With nothing stored under
    the key it yields the default and does nothing else.  With the text
    [undefined] stored, the text a save with an updater function leaves,
    it yields the default too and logs one warning.  In both cases the
    store is left as it is. *)
Theorem load_falls_back_on_default {T} (s : Slot T) (defaultValue : T)
    (w : World) :
  (localStorage w !! key s = None ->
   initialValue s defaultValue w = (Normal (Some defaultValue), w)) /\
  (localStorage w !! key s = Some TextUndefined ->
   completion (initialValue s defaultValue) w = Normal (Some defaultValue) /\
   warnings (exec (initialValue s defaultValue) w)
   = warnings w ++ [str "Error reading localStorage key " ++ [34]
                      ++ str (key s) ++ [34] ++ str ":"] /\
   localStorage (exec (initialValue s defaultValue) w) = localStorage w).
Proof.
  split; intros Hstored.
  - rewrite initialValue_run.
    + unfold hydrated. rewrite Hstored. reflexivity.
    + intros item. rewrite Hstored. discriminate.
  - unfold completion, exec. rewrite initialValue_run.
    + unfold hydrated. rewrite Hstored. cbn. observe.
      destruct s; repeat split; reflexivity.
    + intros item. rewrite Hstored. intros [= <-]. destruct s; discriminate.
Qed.

Lemma load_falls_back_on_default_witness :
  initialValue ChatSettings defaultSettings (initial (fun _ _ => true) 0)
  = (Normal (Some defaultSettings), initial (fun _ _ => true) 0).
Proof.
  apply (load_falls_back_on_default ChatSettings defaultSettings
           (initial (fun _ _ => true) 0)).
  reflexivity.
Defined.

(** X8.  A conversation does not survive a page load.  A send appends
    with updater functions, so what it stores under [chatMessages], when
    the browser accepts the writes, is the text [undefined]: after the
    send the timeline in memory holds the new entries, and the hook's
    initializer, run on that store, yields the empty default and logs a
    warning. *)
Theorem conversation_is_lost_on_reload (customMessage : option jsstring)
    (remote : Remote) (w : World) :
  let txt := default (inputValue w) customMessage in
  let w' := exec (send customMessage remote) w in
  trim txt <> [] ->
  storageAccepts w "chatMessages" TextUndefined = true ->
  messages w' <> [] /\
  localStorage w' !! "chatMessages" = Some TextUndefined /\
  completion (initialValue ChatMessages []) w' = Normal (Some []) /\
  warnings (exec (initialValue ChatMessages []) w')
  = warnings w' ++ [str "Error reading localStorage key " ++ [34]
                      ++ str "chatMessages" ++ [34] ++ str ":"].
Proof.
  intros txt w' Htxt Hacc.
  assert (Hstored : localStorage w' !! "chatMessages" = Some TextUndefined
                    /\ messages w' <> []).
  { subst w'. unfold exec at 1 2. rewrite (send_run _ _ _ Htxt).
    unfold exec. rewrite (handleSendMessage_begin_run _ _ Htxt). fold txt.
    unfold handleSendMessage_settle, sendMessage_settle, sendMessage_begin,
      playNotificationSound, toast.
    unfold setMessages. js_unfold. cbn.
    repeat (rewrite setStoredValue_run; cbn; rewrite ?Hacc; cbn).
    destruct (fetch_with_deadline remote).2 as [r|e]; cbn;
      [destruct (ok r); cbn; [destruct (body r) as [data|why]; cbn|]|];
      repeat match goal with
        | |- context [setStoredValue ?s ?a ?x] =>
            rewrite (setStoredValue_run s a x); cbn; rewrite ?Hacc; cbn
        | |- context [if eqb_str ?a ?b then _ else _] =>
            destruct (eqb_str a b); cbn
        | |- context [if negb (onLine w) then _ else _] =>
            destruct (onLine w); cbn
        | |- context [if soundEnabled (chatSettings w) then _ else _] =>
            destruct (soundEnabled (chatSettings w)); cbn
        | |- context [if ?a && ?b then _ else _] =>
            destruct (a && b); cbn
        end;
      (split; [apply lookup_insert_eq | destruct (messages w); discriminate]). }
  destruct Hstored as [Hstored Hmsgs].
  split; [exact Hmsgs|]. split; [exact Hstored|].
  unfold completion, exec. rewrite initialValue_run.
  - unfold hydrated. change (key ChatMessages) with "chatMessages".
    rewrite Hstored. cbn. observe. split; reflexivity.
  - intros item. change (key ChatMessages) with "chatMessages".
    rewrite Hstored. intros [= <-]. discriminate.
Qed.

Lemma conversation_is_lost_on_reload_witness :
  let w' := exec (send (Some (str "Hello")) NeverResponds)
              (initial (fun _ _ => true) 0) in
  messages w' <> [] /\
  completion (initialValue ChatMessages []) w' = Normal (Some []).
Proof.
  pose proof (conversation_is_lost_on_reload (Some (str "Hello"))
                NeverResponds (initial (fun _ _ => true) 0)) as H.
  cbv zeta in H.
  destruct H as (Hm & _ & Hc & _); [discriminate | reflexivity |].
  split; [exact Hm | exact Hc].
Defined.

Lemma connection_status_only_changes_on_exchange_witness :
  let w := exec (send (Some (str "Hello")) (Unreachable 10 (str "Failed to fetch")))
             (initial (fun _ _ => true) 0) in
  connectionErrorBanner w = true /\
  connectionErrorBanner
    (run [Network false; Network true; Toggle; KeyPress (str "x") false;
          InputChange (str "x"); KeyPress (str "Enter") true;
          KeyPress (str "Backspace") false; ClearHistory; Wait 5000] w)
  = true.
Proof.
  intros w. split; [reflexivity|].
  pose proof (connection_status_only_changes_on_exchange
                [Network false; Network true; Toggle; KeyPress (str "x") false;
                 InputChange (str "x"); KeyPress (str "Enter") true;
                 KeyPress (str "Backspace") false; ClearHistory; Wait 5000]
                w eq_refl) as (_ & Hb & _).
  rewrite Hb. reflexivity.
Defined.

Lemma timeline_stays_chronological_witness :
  chronological
    (run [Toggle; SendMessage (Some (str "Hi")); Wait 250;
          Settled {| messageToSend := str "Hi"; sent_userRole := None;
                     sent_soundEnabled := true |}
            (Rejected AbortError)]
       (initial (fun _ _ => true) 1000)).
Proof.
  apply timeline_stays_chronological.
  split; [intros i j a b _ H; discriminate H | constructor].
Defined.

(** A step keeps the store readable. *)
Lemma perform_readable (a : Action) (w : World) :
  readable (localStorage w) -> readable (localStorage (exec (perform a) w)).
Proof.
  intros Hm.
  assert (Hbegin : forall customMessage,
            readable (localStorage (exec (handleSendMessage_begin customMessage) w))).
  { intros customMessage.
    destruct (trim (default (inputValue w) customMessage)) as [|c rest] eqn:Ht.
    - unfold exec. rewrite (handleSendMessage_begin_blank _ _ Ht). exact Hm.
    - assert (Hne : trim (default (inputValue w) customMessage) <> [])
        by (rewrite Ht; discriminate).
      unfold exec. rewrite (handleSendMessage_begin_run _ _ Hne).
      apply (setStoredValue_readable ChatMessages _ w Hm). }
  destruct a; rewrite ?perform_KeyPress; cbn [perform];
    rewrite ?exec_then_unit.
  - unfold toggleChatDialog. js_run.
    destruct (isOpen w); cbn; [exact Hm|].
    destruct (messages w); cbn; [|exact Hm].
    apply (setStoredValue_readable ChatMessages). exact Hm.
  - exact Hm.
  - unfold handleClickOutside. js_run. destruct target; js_cases w; exact Hm.
  - unfold handleEscapeKey. js_run. js_cases w; exact Hm.
  - destruct up; exact Hm.
  - apply Hbegin.
  - destruct (eqb_str pressed (str "Enter") && negb shiftKey);
      [apply Hbegin | exact Hm].
  - unfold handleSendMessage_settle, sendMessage_settle,
      playNotificationSound, toast. js_run.
    destruct outcome as [r|e]; cbn;
      [destruct (ok r); cbn; [destruct (body r); cbn|]|];
      js_cases w;
      first [exact Hm | apply (readable_insert ChatMessages (Updater id) _ Hm)].
  - unfold clearChatHistory, toast. js_run. js_cases w;
      first [exact Hm | apply (readable_insert ChatMessages (Value []) _ Hm)].
  - exact Hm.
  - apply (setStoredValue_readable UserRole _ _ Hm).
  - apply (setStoredValue_readable ChatSettings _ _ Hm).
  - exact Hm.
Qed.

Lemma run_readable (actions : list Action) (w : World) :
  readable (localStorage w) -> readable (localStorage (run actions w)).
Proof.
  revert w. induction actions as [|a actions IH]; intros w Hm; [exact Hm|].
  rewrite run_cons. apply IH, perform_readable, Hm.
Qed.

#[local] Arguments initialValue : simpl never.

Lemma initialValue_storage {T} (s : Slot T) (defaultValue : T) (w : World) :
  readable (localStorage w) ->
  completion (initialValue s defaultValue) w
  = Normal (Some (hydrated s defaultValue (localStorage w))) /\
  localStorage (exec (initialValue s defaultValue) w) = localStorage w /\
  storageAccepts (exec (initialValue s defaultValue) w) = storageAccepts w /\
  onLine (exec (initialValue s defaultValue) w) = onLine w /\
  clock (exec (initialValue s defaultValue) w) = clock w.
Proof.
  intros Hm. unfold completion, exec.
  rewrite initialValue_run by (intros item; apply Hm).
  split; [reflexivity|].
  destruct (localStorage w !! key s) as [[]|]; repeat split; reflexivity.
Qed.

(** X9.  A page load always succeeds.  Whatever happened to the widget
    since its store was last readable (every entry the text of a value of
    its key, or the text [undefined]), the store still is, and mounting
    [App] over it completes: the timeline, role and settings start from
    what their keys hold, or from their defaults; the dialog starts
    closed, the input empty, the status [connected]; the store is left as
    it is. *)
Theorem page_load_always_succeeds (actions : list Action) (w : World) :
  readable (localStorage w) ->
  let before := run actions w in
  let after := exec mount before in
  readable (localStorage before) /\
  completion mount before = Normal (Some tt) /\
  messages after = hydrated ChatMessages [] (localStorage before) /\
  userRole after = hydrated UserRole None (localStorage before) /\
  chatSettings after
  = hydrated ChatSettings defaultSettings (localStorage before) /\
  isOpen after = false /\ inputValue after = [] /\
  isLoading after = false /\ connectionStatus after = connected /\
  localStorage after = localStorage before.
Proof.
  intros Hm before after.
  assert (Hb : readable (localStorage before)) by apply run_readable, Hm.
  split; [exact Hb|]. subst after. unfold completion, exec, mount.
  destruct (initialValue_storage ChatMessages [] before Hb)
    as (Hc1 & Hs1 & _).
  unfold completion, exec in Hc1, Hs1. rewrite bind_run.
  destruct (initialValue ChatMessages [] before) as [c1 w1].
  cbn [fst snd] in Hc1, Hs1. subst c1.
  assert (Hb1 : readable (localStorage w1)) by (rewrite Hs1; exact Hb).
  destruct (initialValue_storage UserRole None w1 Hb1) as (Hc2 & Hs2 & _).
  unfold completion, exec in Hc2, Hs2. rewrite bind_run.
  destruct (initialValue UserRole None w1) as [c2 w2].
  cbn [fst snd] in Hc2, Hs2. subst c2.
  assert (Hb2 : readable (localStorage w2)) by (rewrite Hs2, Hs1; exact Hb).
  destruct (initialValue_storage ChatSettings defaultSettings w2 Hb2)
    as (Hc3 & Hs3 & _).
  unfold completion, exec in Hc3, Hs3. rewrite bind_run.
  destruct (initialValue ChatSettings defaultSettings w2) as [c3 w3].
  cbn [fst snd] in Hc3, Hs3. subst c3.
  js_unfold. cbn. rewrite ?Hs3, ?Hs2, ?Hs1. repeat split; reflexivity.
Qed.

Lemma page_load_always_succeeds_witness :
  let before := run [Toggle; SendMessage (Some (str "Hello"))]
                  (initial (fun _ _ => true) 0) in
  completion mount before = Normal (Some tt) /\
  messages (exec mount before) = [].
Proof.
  pose proof (page_load_always_succeeds
                [Toggle; SendMessage (Some (str "Hello"))]
                (initial (fun _ _ => true) 0)) as H.
  cbv zeta in H.
  destruct H as (_ & Hc & Hmsgs & _).
  - intros T s item Hlook. destruct s; discriminate Hlook.
  - split; [exact Hc|]. rewrite Hmsgs. reflexivity.
Defined.

(** ** More on one send *)

Lemma handleSendMessage_settle_sounds (p : Pending) (outcome : FetchOutcome)
    (w : World) :
  sounds (exec (handleSendMessage_settle p outcome) w) =
  (sounds w +
   match completion (sendMessage_settle outcome) w with
   | Normal _ => if sent_soundEnabled p then 1 else 0
   | Thrown _ => 0
   end)%nat.
Proof.
  unfold handleSendMessage_settle, sendMessage_settle, playNotificationSound,
    toast. js_run.
  destruct outcome as [r|e]; cbn;
    [destruct (ok r); cbn; [destruct (body r); cbn|]|];
    js_cases w; observe; rewrite ?List.length_app; cbn; lia.
Qed.

(** A send whose request settles runs to its end: the handler does not
    throw, the busy flag is false again, the pending input is cleared, one
    request has gone out, and the timeline has gained the user's entry
    followed by one entry of the assistant, an error entry exactly when
    [sendMessage] threw. *)
Lemma send_always_completes (customMessage : option jsstring)
    (remote : Remote) (w : World) :
  let txt := default (inputValue w) customMessage in
  let w' := exec (send customMessage remote) w in
  let settling :=
    elapse (fetch_with_deadline remote).1
      (exec (handleSendMessage_begin customMessage) w) in
  trim txt <> [] ->
  completion (send customMessage remote) w = Normal tt /\
  isLoading w' = false /\ inputValue w' = [] /\
  List.length (requests w') = S (List.length (requests w)) /\
  exists answer,
    messages w' = messages w ++ [userMessage txt (clock w); answer] /\
    sender answer = bot /\
    isError answer =
      match completion (sendMessage_settle (fetch_with_deadline remote).2)
              settling with
      | Normal _ => false
      | Thrown _ => true
      end.
Proof.
  intros txt w' settling Htxt.
  destruct (handleSendMessage_begin_state customMessage w Htxt)
    as (Hmsgs & Hinput & _ & _ & _ & _ & _ & _ & _ & _ & Hreq).
  set (p := {| messageToSend := txt; sent_userRole := userRole w;
               sent_soundEnabled := soundEnabled (chatSettings w) |}).
  destruct (handleSendMessage_settle_state p (fetch_with_deadline remote).2
              settling)
    as (Hdone & Hidle & _ & _ & Hinput' & _ & Hreq' & _ & Hout).
  assert (Hrun : send customMessage remote w
                 = handleSendMessage_settle p (fetch_with_deadline remote).2
                     settling)
    by exact (send_run customMessage remote w Htxt).
  unfold w', completion, exec in *. rewrite Hrun.
  split; [exact Hdone|]. split; [exact Hidle|].
  split; [rewrite Hinput'; exact Hinput|].
  split.
  { rewrite Hreq'. change (requests settling)
      with (requests (handleSendMessage_begin customMessage w).2).
    rewrite Hreq, List.length_app. simpl. lia. }
  change (messages settling)
    with (messages (handleSendMessage_begin customMessage w).2) in Hout.
  rewrite Hmsgs in Hout.
  destruct (sendMessage_settle (fetch_with_deadline remote).2 settling).1
    as [reply|err]; destruct Hout as [Hout _]; rewrite Hout, <- app_assoc;
    eexists; (split; [reflexivity|]); split; reflexivity.
Qed.

Lemma send_always_completes_witness :
  let w := initial (fun _ _ => false) 0 in
  completion (send (Some (str "Hi")) (Unreachable 3 [])) w = Normal tt /\
  isLoading (exec (send (Some (str "Hi")) (Unreachable 3 [])) w) = false.
Proof.
  pose proof (send_always_completes (Some (str "Hi")) (Unreachable 3 [])
                (initial (fun _ _ => false) 0)) as H.
  cbv zeta in H. destruct H as (Hc & Hidle & _); [discriminate|].
  split; [exact Hc | exact Hidle].
Defined.

Lemma exec_then_ret {A B} (m : Js A) (x : B) (w : World) :
  exec (m;; mret x) w = exec m w.
Proof.
  unfold exec. rewrite bind_run. destruct (m w) as [[a|e] w']; reflexivity.
Qed.

(** With a response that has no success status, the body is not looked
    at. *)
Lemma settle_ignores_unread_body (p : Pending) (r r' : Response) (w : World) :
  ok r = false -> status r' = status r -> statusText r' = statusText r ->
  handleSendMessage_settle p (Fulfilled r') w
  = handleSendMessage_settle p (Fulfilled r) w.
Proof.
  intros Hok Hs Ht.
  assert (Hok' : ok r' = false) by (unfold ok in *; rewrite Hs; exact Hok).
  unfold handleSendMessage_settle, sendMessage_settle. js_unfold. cbn.
  rewrite Hok, Hok', Hs, Ht. reflexivity.
Qed.

Lemma send_course_settling (customMessage : option jsstring)
    (after status : N) (statusText : jsstring) (w : World) :
  stalls (BodyNeverCompletes after status statusText) = false ->
  send_course customMessage (BodyNeverCompletes after status statusText) w
  = (send customMessage (Responds after (head status statusText));;
     mret Returned) w.
Proof.
  intros Hstall. unfold send_course, send. rewrite !bind_run.
  destruct (handleSendMessage_begin customMessage w) as [[[p|]|e] w1];
    try reflexivity.
  cbn [stalls] in Hstall. unfold fetch_with_deadline.
  destruct (after <? timeout_ms); cbn in Hstall |- *.
  - unfold handleSendMessage_upto_json. rewrite !bind_run. cbn.
    rewrite Hstall. rewrite !bind_run. reflexivity.
  - rewrite !bind_run. cbn. rewrite !bind_run. reflexivity.
Qed.

(** X10.  A send past the guard runs to its end unless the body of the
    response never completes.  Along every course in which the request
    settles (a reply, a bad status, an unreadable body, a network
    failure, no response before the deadline) the handler returns, the
    busy flag is false again and the timeline has gained the user's entry
    and one entry of the assistant.  When the head of a response with a
    success status arrives before the deadline and its body never does,
    the handler stays suspended with the timer cleared: the busy flag is
    true, the status [connecting], only the user's entry is in the
    timeline; and whatever happens next short of another exchange, the
    flag stays true and the dialog's send button and quick replies stay
    disabled. *)
Theorem send_completes_unless_body_stalls (customMessage : option jsstring)
    (course : Course) (w : World) :
  let txt := default (inputValue w) customMessage in
  let w' := exec (send_course customMessage course) w in
  trim txt <> [] ->
  completion (send_course customMessage course) w
  = Normal (if stalls course then Suspended else Returned) /\
  inputValue w' = [] /\
  List.length (requests w') = S (List.length (requests w)) /\
  if stalls course
  then
    isLoading w' = true /\ connectionStatus w' = connecting /\
    messages w' = messages w ++ [userMessage txt (clock w)] /\
    forall actions d index,
      existsb is_exchange actions = false ->
      isLoading (run actions w') = true /\
      ChatDialogView.available ChatDialogView.SendButton d (run actions w')
      = false /\
      ChatDialogView.available (ChatDialogView.QuickReplyButton index) d
        (run actions w') = false
  else
    isLoading w' = false /\
    exists answer,
      messages w' = messages w ++ [userMessage txt (clock w); answer] /\
      sender answer = bot.
Proof.
  intros txt w' Htxt.
  assert (Hsettles : forall remote,
            completion (send customMessage remote;; mret Returned) w
            = Normal Returned /\
            inputValue (exec (send customMessage remote;; mret Returned) w) = [] /\
            List.length (requests (exec (send customMessage remote;;
                                         mret Returned) w))
            = S (List.length (requests w)) /\
            isLoading (exec (send customMessage remote;; mret Returned) w)
            = false /\
            exists answer,
              messages (exec (send customMessage remote;; mret Returned) w)
              = messages w ++ [userMessage txt (clock w); answer] /\
              sender answer = bot).
  { intros remote.
    destruct (send_always_completes customMessage remote w Htxt)
      as (Hc & Hidle & Hinput & Hreq & answer & Hm & Hbot & _).
    rewrite exec_then_ret. unfold completion in *. rewrite bind_run.
    unfold exec in *.
    destruct (send customMessage remote w) as [c w2]. cbn in Hc. subst c.
    split; [reflexivity|]. split; [exact Hinput|]. split; [exact Hreq|].
    split; [exact Hidle|]. exists answer. split; assumption. }
  destruct (stalls course) eqn:Hstall.
  - destruct course as [remote|after status statusText]; [discriminate|].
    cbn [stalls] in Hstall. apply andb_true_iff in Hstall as [Hafter Hok].
    destruct (handleSendMessage_begin_state customMessage w Htxt)
      as (Hm & Hinput & Hbusy & Hstatus & _ & _ & _ & _ & _ & _ & Hreq).
    assert (Hrun : send_course customMessage
                     (BodyNeverCompletes after status statusText) w
                   = (Normal Suspended,
                      elapse after
                        (exec (handleSendMessage_begin customMessage) w))).
    { unfold send_course, exec. rewrite bind_run.
      rewrite (handleSendMessage_begin_run _ _ Htxt).
      unfold fetch_with_deadline. rewrite Hafter. rewrite bind_run. cbn.
      rewrite Hok. reflexivity. }
    set (w1 := exec (handleSendMessage_begin customMessage) w) in *.
    assert (Hw' : w' = elapse after w1)
      by (unfold w', exec; rewrite Hrun; reflexivity).
    unfold completion. rewrite Hrun. cbn [fst]. rewrite Hw'.
    change (inputValue (elapse after w1)) with (inputValue w1).
    change (requests (elapse after w1)) with (requests w1).
    change (isLoading (elapse after w1)) with (isLoading w1).
    change (connectionStatus (elapse after w1)) with (connectionStatus w1).
    change (messages (elapse after w1)) with (messages w1).
    split; [reflexivity|]. split; [exact Hinput|]. split.
    { rewrite Hreq, List.length_app. simpl. lia. }
    split; [exact Hbusy|]. split; [exact Hstatus|]. split; [exact Hm|].
    intros actions d index Hex.
    destruct (run_without_exchange actions (elapse after w1) Hex)
      as (_ & Hl & _).
    assert (Hstuck : isLoading (run actions (elapse after w1)) = true)
      by (rewrite Hl; exact Hbusy).
    split; [exact Hstuck|].
    unfold ChatDialogView.available. rewrite Hstuck.
    destruct (ChatDialog.isMinimized d); cbn; [split; reflexivity|].
    split; [reflexivity|]. rewrite !andb_false_r. reflexivity.
  - destruct course as [remote|after status statusText].
    + unfold w'. cbn [send_course].
      destruct (Hsettles remote) as (Hc & Hinput & Hreq & Hidle & Hanswer).
      repeat split; assumption.
    + unfold w', completion, exec.
      rewrite (send_course_settling customMessage _ _ _ w Hstall).
      destruct (Hsettles (Responds after (head status statusText)))
        as (Hc & Hinput & Hreq & Hidle & Hanswer).
      repeat split; assumption.
Qed.

Lemma send_completes_unless_body_stalls_witness :
  let w := run [Toggle; InputChange (str "Hello")]
             (initial (fun _ _ => true) 0) in
  let w' := exec (send_course None (BodyNeverCompletes 120 200 (str "OK"))) w in
  completion (send_course None (BodyNeverCompletes 120 200 (str "OK"))) w
  = Normal Suspended /\
  isLoading (run [Wait 3600000; Network false; Network true; Toggle] w')
  = true.
Proof.
  intros w w'.
  pose proof (send_completes_unless_body_stalls None
                (BodyNeverCompletes 120 200 (str "OK")) w) as H.
  cbv zeta in H. destruct H as (Hc & _ & _ & Hstall); [discriminate|].
  split; [exact Hc|].
  change (stalls (BodyNeverCompletes 120 200 (str "OK"))) with true in Hstall.
  destruct Hstall as (_ & _ & _ & Hstuck).
  apply (Hstuck [Wait 3600000; Network false; Network true; Toggle]
           ChatDialog.mounted 0%nat).
  reflexivity.
Defined.

(** X11.  When an exchange fails, the error entry in the timeline and the
    error notification show the same text, the message of the error that
    [sendMessage] threw, which is never empty: the entry's stand-in text
    is never used. *)
Theorem error_entry_and_toast_agree (p : Pending) (outcome : FetchOutcome)
    (w : World) (err : JsError) :
  completion (sendMessage_settle outcome) w = Thrown err ->
  let w' := exec (handleSendMessage_settle p outcome) w in
  message err <> [] /\
  messages w' = messages w ++ [errorMessage err (clock w)] /\
  text (errorMessage err (clock w)) = message err /\
  toasts w' = toasts w ++ [(toast_error, message err)].
Proof.
  intros Hthrown w'.
  pose proof (sendMessage_settle_message outcome w err Hthrown) as Hmsg.
  destruct (handleSendMessage_settle_state p outcome w)
    as (_ & _ & _ & _ & _ & _ & _ & _ & Hout).
  rewrite Hthrown in Hout. destruct Hout as [Hm Ht].
  split; [exact Hmsg|]. split; [exact Hm|]. split; [|exact Ht].
  unfold errorMessage, or_else. cbn.
  destruct (message err); [congruence | reflexivity].
Qed.

Lemma error_entry_and_toast_agree_witness :
  let p := {| messageToSend := str "Hi"; sent_userRole := None;
              sent_soundEnabled := true |} in
  toasts (exec (handleSendMessage_settle p (Rejected (TypeError [])))
            (initial (fun _ _ => true) 0))
  = [(toast_error, str "Failed to connect to server. Please try again.")].
Proof.
  intros p.
  pose proof (error_entry_and_toast_agree p (Rejected (TypeError []))
                (initial (fun _ _ => true) 0)
                (Error (str "Failed to connect to server. Please try again."))
                eq_refl) as (_ & _ & _ & Ht).
  exact Ht.
Defined.

(** X12.  The notification sound is played once for a reply and never
    for a failure, and what decides is the sound setting at the time of
    the send, which the handler closed over, not the setting when the reply
    arrives. *)
Theorem sound_follows_setting_at_send (customMessage : option jsstring)
    (outcome : FetchOutcome) (between : list Action) (w : World) :
  let txt := default (inputValue w) customMessage in
  let p := {| messageToSend := txt; sent_userRole := userRole w;
              sent_soundEnabled := soundEnabled (chatSettings w) |} in
  let settling := run between (exec (handleSendMessage_begin customMessage) w) in
  let w' := exec (handleSendMessage_settle p outcome) settling in
  trim txt <> [] ->
  completion (handleSendMessage_begin customMessage) w = Normal (Some p) /\
  sounds w' =
  (sounds settling +
   match completion (sendMessage_settle outcome) settling with
   | Normal _ => if soundEnabled (chatSettings w) then 1 else 0
   | Thrown _ => 0
   end)%nat.
Proof.
  intros txt p settling w' Htxt. split.
  - unfold completion. rewrite (handleSendMessage_begin_run _ _ Htxt).
    reflexivity.
  - apply handleSendMessage_settle_sounds.
Qed.

Lemma sound_follows_setting_at_send_witness :
  let w := initial (fun _ _ => true) 0 in
  let off := {| notifications := true; soundEnabled := false;
                theme := light |} in
  let p := {| messageToSend := str "Hi"; sent_userRole := None;
              sent_soundEnabled := true |} in
  let r := {| status := 200; statusText := str "OK";
              body := JsonBody {| data_response := str "Hello!";
                                  data_detected_role := None;
                                  data_confidence := None |} |} in
  sounds (exec (handleSendMessage_settle p (Fulfilled r))
            (run [SettingsChange (Value off)]
               (exec (handleSendMessage_begin (Some (str "Hi"))) w)))
  = 1%nat.
Proof.
  intros w off p r.
  pose proof (sound_follows_setting_at_send (Some (str "Hi")) (Fulfilled r)
                [SettingsChange (Value off)] w) as H.
  cbv zeta in H. destruct H as (_ & Hs); [discriminate|].
  exact Hs.
Defined.

(** X13.  The busy flag is one flag, not a count: with two sends under
    way, the first exchange to settle clears it while the other request
    is still out. *)
Theorem busy_flag_cleared_by_first_to_settle (first second : jsstring)
    (outcome : FetchOutcome) (w : World) :
  let p := {| messageToSend := first; sent_userRole := userRole w;
              sent_soundEnabled := soundEnabled (chatSettings w) |} in
  let w1 := exec (handleSendMessage_begin (Some first)) w in
  let w2 := exec (handleSendMessage_begin (Some second)) w1 in
  let w3 := exec (handleSendMessage_settle p outcome) w2 in
  trim first <> [] -> trim second <> [] ->
  isLoading w2 = true /\
  List.length (requests w2) = S (S (List.length (requests w))) /\
  isLoading w3 = false /\
  List.length (messages w3) = S (S (S (List.length (messages w)))) /\
  from_user (messages w3)
  = from_user (messages w) ++ [userMessage first (clock w);
                               userMessage second (clock w)].
Proof.
  intros p w1 w2 w3 Hfirst Hsecond.
  destruct (handleSendMessage_begin_state (Some first) w Hfirst)
    as (Hm1 & _ & _ & _ & _ & _ & Hc1 & _ & _ & _ & Hr1).
  destruct (handleSendMessage_begin_state (Some second) w1 Hsecond)
    as (Hm2 & _ & Hbusy & _ & _ & _ & _ & _ & _ & _ & Hr2).
  destruct (handleSendMessage_settle_state p outcome w2)
    as (_ & Hidle & _ & _ & _ & _ & _ & _ & Hout).
  fold w1 in Hm1, Hc1, Hr1. fold w2 in Hm2, Hbusy, Hr2. fold w3 in Hidle, Hout.
  change (default (inputValue w) (Some first)) with first in *.
  change (default (inputValue w1) (Some second)) with second in *.
  rewrite Hm1, Hc1 in Hm2.
  split; [exact Hbusy|]. split.
  { rewrite Hr2, Hr1, !List.length_app. simpl. lia. }
  split; [exact Hidle|].
  assert (Hm3 : exists answer, sender answer = bot /\
                  messages w3 = messages w2 ++ [answer]).
  { destruct (completion (sendMessage_settle outcome) w2);
      destruct Hout as [Hout _]; eexists; (split; [|exact Hout]); reflexivity. }
  destruct Hm3 as (answer & Hbot & Hm3).
  rewrite Hm3, Hm2. split.
  - rewrite !List.length_app. simpl. lia.
  - unfold from_user. rewrite !List.filter_app. cbn. rewrite Hbot.
    rewrite app_nil_r, <- app_assoc. reflexivity.
Qed.

Lemma busy_flag_cleared_by_first_to_settle_witness :
  let w := initial (fun _ _ => true) 0 in
  let p := {| messageToSend := str "one"; sent_userRole := None;
              sent_soundEnabled := true |} in
  isLoading
    (exec (handleSendMessage_settle p (Rejected AbortError))
       (exec (handleSendMessage_begin (Some (str "two")))
          (exec (handleSendMessage_begin (Some (str "one"))) w))) = false.
Proof.
  intros w p.
  pose proof (busy_flag_cleared_by_first_to_settle (str "one") (str "two")
                (Rejected AbortError) w) as H.
  cbv zeta in H. destruct H as (_ & _ & Hidle & _);
    [discriminate | discriminate |].
  exact Hidle.
Defined.

(** ** Opening and closing *)

(** X14.  Closing the dialog.  A mouse press outside the dialog and the
    bubble closes it, and so does the Escape key; a press inside the
    dialog, or any other key, changes nothing.  A press on the bubble is
    left to the bubble's own click, so that clicking the bubble toggles
    the dialog exactly once.  None of these touches the timeline when
    the dialog was open. *)
Theorem closing_the_dialog (w : World) :
  isOpen (exec (handleClickOutside Elsewhere) w) = false /\
  isOpen (exec (handleEscapeKey (str "Escape")) w) = false /\
  exec (handleClickOutside InDialog) w = w /\
  exec (handleClickOutside InBubble) w = w /\
  (forall pressed, eqb_str pressed (str "Escape") = false ->
                   exec (handleEscapeKey pressed) w = w) /\
  isOpen (run [ClickOutside InBubble; Toggle] w) = negb (isOpen w) /\
  messages (exec (handleClickOutside Elsewhere) w) = messages w /\
  messages (exec (handleEscapeKey (str "Escape")) w) = messages w /\
  (isOpen w = true ->
   messages (run [ClickOutside InBubble; Toggle] w) = messages w).
Proof.
  unfold run, fold_left, perform, handleClickOutside, handleEscapeKey,
    toggleChatDialog.
  js_run. change (eqb_str (str "Escape") (str "Escape")) with true. cbn.
  destruct (isOpen w) eqn:Hopen; cbn; rewrite ?Hopen; cbn;
    repeat split; try reflexivity; try discriminate;
    try (intros pressed ->; reflexivity).
  all: destruct (messages w); cbn; try reflexivity; js_cases w; reflexivity.
Qed.

Lemma closing_the_dialog_witness :
  let w := exec toggleChatDialog (initial (fun _ _ => true) 0) in
  isOpen w = true /\
  messages (run [ClickOutside InBubble; Toggle] w) = messages w /\
  isOpen (run [ClickOutside InBubble; Toggle] w) = false.
Proof.
  intros w.
  pose proof (closing_the_dialog w) as (_ & _ & _ & _ & _ & Htoggle & _ & _ & Hm).
  split; [reflexivity|]. split; [apply Hm; reflexivity|].
  rewrite Htoggle. reflexivity.
Defined.

(** X15.  While a request is pending the bubble shows the colour of
    [connecting] and no icon, the dialog's header reads [Offline], and
    the error banner is not shown.  The header reads [Online] exactly
    under the status [connected], and the three colours of the bubble
    tell the three statuses apart. *)
Theorem status_display (customMessage : option jsstring) (w : World) :
  let w1 := exec (handleSendMessage_begin customMessage) w in
  (trim (default (inputValue w) customMessage) <> [] ->
   ChatBubble.getStatusColor (connectionStatus w1) = str "bg-yellow-500" /\
   ChatBubble.getStatusIcon (connectionStatus w1) = None /\
   ChatDialogView.headerStatus w1 = str "Offline" /\
   connectionErrorBanner w1 = false) /\
  (ChatDialogView.headerStatus w = str "Online"
   <-> connectionStatus w = connected) /\
  (forall s1 s2, ChatBubble.getStatusColor s1 = ChatBubble.getStatusColor s2
                 -> s1 = s2).
Proof.
  intros w1. split; [|split].
  - intros Htxt.
    destruct (handleSendMessage_begin_state customMessage w Htxt)
      as (_ & _ & _ & Hstatus & _).
    fold w1 in Hstatus.
    unfold ChatDialogView.headerStatus, connectionErrorBanner.
    rewrite Hstatus. repeat split; reflexivity.
  - unfold ChatDialogView.headerStatus.
    destruct (connectionStatus w); split; intros H;
      try reflexivity; discriminate H.
  - intros [] []; intros H; try reflexivity; discriminate H.
Qed.

Lemma status_display_witness :
  ChatDialogView.headerStatus
    (exec (handleSendMessage_begin (Some (str "Hi")))
       (initial (fun _ _ => true) 0))
  = str "Offline".
Proof.
  pose proof (status_display (Some (str "Hi")) (initial (fun _ _ => true) 0))
    as H.
  cbv zeta in H. destruct H as (H & _).
  destruct H as (_ & _ & Hoff & _); [discriminate|]. exact Hoff.
Defined.

(** ** The dialog's controls *)

(** X16.  The Enter key and the send button.  While no reply is awaited,
    pressing Enter without Shift in the input does exactly what a click
    on the send button does; any other key press does nothing.  While a
    reply is awaited the send button does nothing. *)
Theorem enter_key_is_send_button (d : ChatDialog.State) (w : World) :
  (isLoading w = false ->
   handleKeyPress (str "Enter") false w = ChatDialog.sendButton_onClick d w) /\
  (isLoading w = true -> ChatDialog.sendButton_onClick d w = (Normal None, w)) /\
  (forall pressed shiftKey,
     eqb_str pressed (str "Enter") && negb shiftKey = false ->
     handleKeyPress pressed shiftKey w = (Normal None, w)).
Proof.
  split; [|split].
  - intros Hidle. unfold handleKeyPress, ChatDialog.sendButton_onClick,
      ChatDialog.onSendMessage.
    change (eqb_str (str "Enter") (str "Enter") && negb false) with true.
    cbv iota. js_unfold. cbn. rewrite Hidle. cbn.
    destruct (eqb_str (trim (inputValue w)) []) eqn:Hblank.
    + apply eqb_str_eq in Hblank.
      apply (handleSendMessage_begin_blank None w Hblank).
    + reflexivity.
  - intros Hbusy. unfold ChatDialog.sendButton_onClick. js_unfold. cbn.
    rewrite Hbusy. reflexivity.
  - intros pressed shiftKey Hother. unfold handleKeyPress.
    rewrite Hother. reflexivity.
Qed.

Lemma enter_key_is_send_button_witness :
  let w := exec (handleInputChange (str "Hello")) (initial (fun _ _ => true) 0) in
  handleKeyPress (str "Enter") false w
  = ChatDialog.sendButton_onClick ChatDialog.mounted w.
Proof.
  apply (enter_key_is_send_button ChatDialog.mounted
           (exec (handleInputChange (str "Hello"))
              (initial (fun _ _ => true) 0))).
  reflexivity.
Defined.

(** X17.  The header's Clear Chat and Export Chat buttons do nothing:
    the dialog reads its handlers from the props [onClearChat] and
    [onExportChat], while [App] passes them as [onClearHistory] and
    [onExportHistory].  Nor is the typing indicator ever shown: [isTyping]
    is not passed. *)
Theorem header_buttons_do_nothing (w : World) :
  (exists onClick, ChatDialogView.clearButton_onClick = Some onClick /\
                   onClick w = (Normal tt, w)) /\
  (exists onClick, ChatDialogView.exportButton_onClick = Some onClick /\
                   onClick w = (Normal tt, w)) /\
  ChatDialogView.typingIndicator = false /\
  ChatDialogView.props !! "onClearHistory"
  = Some (ChatDialogView.OnClear clearChatHistory).
Proof.
  split; [|split; [|split]].
  - exists (mret tt). split; reflexivity.
  - exists (mret tt). split; reflexivity.
  - reflexivity.
  - reflexivity.
Qed.

Lemma handleSendMessage_begin_completes (customMessage : option jsstring)
    (w : World) :
  exists started, completion (handleSendMessage_begin customMessage) w
                  = Normal started.
Proof.
  destruct (trim (default (inputValue w) customMessage)) as [|c rest] eqn:Ht.
  - unfold completion. rewrite (handleSendMessage_begin_blank _ _ Ht). eauto.
  - assert (Hne : trim (default (inputValue w) customMessage) <> [])
      by (rewrite Ht; discriminate).
    unfold completion. rewrite (handleSendMessage_begin_run _ _ Hne). eauto.
Qed.

(** A click always completes; with the quick replies hidden and a role
    chosen it keeps both as they are. *)
Lemma click_keeps_role (c : ChatDialogView.Control) (d : ChatDialog.State)
    (w : World) (r : ChatDialog.RoleKey) :
  ChatDialog.role d = Some r -> ChatDialog.showQuickReplies d = false ->
  exists d' started w',
    ChatDialogView.click c d w = (Normal (d', started), w') /\
    ChatDialog.role d' = Some r /\ ChatDialog.showQuickReplies d' = false.
Proof.
  intros Hrole Hhidden.
  unfold ChatDialogView.click, ChatDialogView.available. js_unfold. cbn.
  rewrite Hrole, Hhidden.
  destruct (ChatDialog.isMinimized d) eqn:Hmin, c; cbn;
    try (do 3 eexists; split; [reflexivity|]; split; assumption).
  destruct (negb (isLoading w || eqb_str (trim (inputValue w)) [])).
  - unfold ChatDialog.sendButton_onClick, ChatDialog.onSendMessage.
    js_unfold. cbn.
    destruct (isLoading w || eqb_str (trim (inputValue w)) []); cbn.
    + do 3 eexists. split; [reflexivity|]. split; assumption.
    + destruct (handleSendMessage_begin_completes (Some (inputValue w)) w)
        as (started & Hc).
      unfold completion in Hc.
      destruct (handleSendMessage_begin (Some (inputValue w)) w) as [c' w'].
      cbn in Hc. subst c'.
      do 3 eexists. split; [reflexivity|]. split; assumption.
  - do 3 eexists. split; [reflexivity|]. split; assumption.
Qed.

(** X18.  Once a quick reply has been used the role can no longer be
    changed in the dialog.  Using one hides the quick replies, and with
    them the only button that resets the role; the role buttons show only
    while no role is chosen, and nothing shows the quick replies again.
    So after any further clicks the role is the same and the quick
    replies are still hidden. *)
Theorem role_is_fixed_after_quick_reply (question : jsstring)
    (cs : list ChatDialogView.Control) (d : ChatDialog.State)
    (r : ChatDialog.RoleKey) (w w1 : World) :
  ChatDialog.role d = Some r ->
  exists d1 started w',
    ChatDialog.handlePresetClick question d w = (Normal (d1, started), w') /\
    ChatDialog.role d1 = Some r /\
    ChatDialog.showQuickReplies d1 = false /\
    ChatDialog.role (ChatDialogView.clicks cs d1 w1).1 = Some r /\
    ChatDialog.showQuickReplies (ChatDialogView.clicks cs d1 w1).1 = false.
Proof.
  intros Hrole.
  unfold ChatDialog.handlePresetClick, ChatDialog.onSendMessage.
  destruct (handleSendMessage_begin_completes (Some question) w)
    as (started & Hc).
  unfold completion in Hc. rewrite bind_run.
  destruct (handleSendMessage_begin (Some question) w) as [c' w'].
  cbn in Hc. subst c'.
  do 3 eexists. split; [reflexivity|]. cbn [ChatDialog.role ChatDialog.showQuickReplies].
  split; [exact Hrole|]. split; [reflexivity|].
  set (d1 := {| ChatDialog.role := ChatDialog.role d;
                ChatDialog.isMinimized := ChatDialog.isMinimized d;
                ChatDialog.showQuickReplies := false |}).
  assert (Hr1 : ChatDialog.role d1 = Some r) by exact Hrole.
  assert (Hh1 : ChatDialog.showQuickReplies d1 = false) by reflexivity.
  clearbody d1. clear Hrole. revert d1 w1 Hr1 Hh1.
  induction cs as [|c cs IH]; intros d1 w1 Hr1 Hh1; [split; assumption|].
  destruct (click_keeps_role c d1 w1 r Hr1 Hh1)
    as (d2 & started2 & w2 & Hclick & Hr2 & Hh2).
  cbn [ChatDialogView.clicks]. rewrite Hclick. apply IH; assumption.
Qed.

Lemma role_is_fixed_after_quick_reply_witness :
  let d := {| ChatDialog.role := Some ChatDialog.parent;
              ChatDialog.isMinimized := false;
              ChatDialog.showQuickReplies := true |} in
  let w := initial (fun _ _ => true) 0 in
  exists d1 started w',
    ChatDialog.handlePresetClick (str "Is hostel facility available?") d w
    = (Normal (d1, started), w') /\
    ChatDialog.role
      (ChatDialogView.clicks
         [ChatDialogView.ChangeRoleButton;
          ChatDialogView.RoleButton ChatDialog.student;
          ChatDialogView.MinimizeButton; ChatDialogView.HeaderBar;
          ChatDialogView.ChangeRoleButton] d1 w').1
    = Some ChatDialog.parent.
Proof.
  intros d w.
  destruct (role_is_fixed_after_quick_reply
              (str "Is hostel facility available?")
              [ChatDialogView.ChangeRoleButton;
               ChatDialogView.RoleButton ChatDialog.student;
               ChatDialogView.MinimizeButton; ChatDialogView.HeaderBar;
               ChatDialogView.ChangeRoleButton]
              d ChatDialog.parent w
              (exec (ChatDialog.handlePresetClick
                       (str "Is hostel facility available?") d) w)
              eq_refl)
    as (d1 & started & w' & Hrun & _ & _ & Hrole & _).
  exists d1, started, w'. split; [exact Hrun|].
  assert (Hw : w' = exec (ChatDialog.handlePresetClick
                            (str "Is hostel facility available?") d) w)
    by (unfold exec; rewrite Hrun; reflexivity).
  rewrite Hw. exact Hrole.
Defined.

(** X19.  The caption of a quick reply is at most 33 code units long and
    starts with the first 30 of the question; a question of at most 30
    is its own caption, a longer one is cut to 30 and followed by three
    dots. *)
Theorem caption_is_short (question : jsstring) :
  (List.length (ChatDialogView.caption question) <= 33)%nat /\
  take 30 (ChatDialogView.caption question) = take 30 question /\
  ((List.length question <= 30)%nat ->
   ChatDialogView.caption question = question) /\
  ((30 < List.length question)%nat ->
   ChatDialogView.caption question = take 30 question ++ str "..." /\
   List.length (ChatDialogView.caption question) = 33%nat).
Proof.
  unfold ChatDialogView.caption.
  destruct (30 <? List.length question)%nat eqn:Hlong.
  - apply Nat.ltb_lt in Hlong.
    assert (Hlen : List.length (take 30 question) = 30%nat)
      by (rewrite length_take; lia).
    repeat split.
    + rewrite List.length_app, Hlen.
      change (List.length (str "...")) with 3%nat. lia.
    + rewrite take_app_le by lia. apply take_take.
    + intros Hshort. exfalso. lia.
    + rewrite List.length_app, Hlen. reflexivity.
  - apply Nat.ltb_ge in Hlong.
    split; [lia|]. split; [reflexivity|]. split; [reflexivity|].
    intros Hlonger. exfalso. lia.
Qed.

Lemma caption_is_short_witness :
  ChatDialogView.caption (str "How can I access the library or e-resources?")
  = str "How can I access the library o...".
Proof.
  apply (caption_is_short
           (str "How can I access the library or e-resources?")).
  vm_compute. lia.
Defined.

Lemma presets_are_tidy (r : ChatDialog.RoleKey) :
  Forall (fun q => trim q = q /\ q <> [])
    (ChatDialogView.PRESET_QUESTIONS_BY_ROLE r).
Proof.
  destruct r; repeat constructor; solve [vm_compute; reflexivity | discriminate].
Qed.

(** X20.  Every role offers four quick replies, and a click on one,
    while no reply is awaited, sends the whole question as its message,
    not the caption, puts it in the timeline as the user's entry and hides
    the quick replies. *)
Theorem quick_reply_sends_the_question (d : ChatDialog.State)
    (r : ChatDialog.RoleKey) (index : nat) (w : World) :
  ChatDialog.role d = Some r ->
  ChatDialog.isMinimized d = false ->
  ChatDialog.showQuickReplies d = true ->
  isLoading w = false ->
  (index < 4)%nat ->
  List.length (ChatDialogView.quickReplies d) = 4%nat /\
  exists question d' p w',
    ChatDialogView.quickReplies d !! index = Some question /\
    ChatDialogView.click (ChatDialogView.QuickReplyButton index) d w
    = (Normal (d', Some p), w') /\
    ChatDialog.showQuickReplies d' = false /\
    ChatDialog.role d' = Some r /\
    requests w' = requests w ++ [{| req_message := question;
                                    req_role := userRole w;
                                    req_timestamp := clock w |}] /\
    messages w' = messages w ++ [userMessage question (clock w)].
Proof.
  intros Hrole Hmin Hshown Hidle Hindex.
  assert (Hfour : List.length (ChatDialogView.quickReplies d) = 4%nat).
  { unfold ChatDialogView.quickReplies, ChatDialogView.presetQuestions.
    rewrite Hrole. destruct r; reflexivity. }
  split; [exact Hfour|].
  destruct (lookup_lt_is_Some_2 (ChatDialogView.quickReplies d) index)
    as [question Hq]; [rewrite Hfour; exact Hindex|].
  assert (Htidy : trim question = question /\ question <> []).
  { pose proof (presets_are_tidy r) as Hall.
    rewrite Forall_forall in Hall. apply Hall.
    apply list_elem_of_lookup_2 in Hq.
    unfold ChatDialogView.quickReplies, ChatDialogView.presetQuestions in Hq.
    rewrite Hrole in Hq.
    apply (subseteq_take 4 (ChatDialogView.PRESET_QUESTIONS_BY_ROLE r)).
    exact Hq. }
  destruct Htidy as [Htrim Hne].
  assert (Htxt : trim (default (inputValue w) (Some question)) <> [])
    by (change (trim question <> []); rewrite Htrim; exact Hne).
  destruct (handleSendMessage_begin_state (Some question) w Htxt)
    as (Hm & _ & _ & _ & _ & _ & _ & _ & _ & _ & Hreq).
  change (default (inputValue w) (Some question)) with question in Hm, Hreq.
  rewrite Htrim in Hreq.
  pose proof (handleSendMessage_begin_run (Some question) w Htxt) as Hrun.
  unfold exec in Hm, Hreq.
  destruct (handleSendMessage_begin (Some question) w) as [c' w'] eqn:E.
  injection Hrun as Hc _. cbn [snd] in Hm, Hreq.
  exists question. do 3 eexists. split; [exact Hq|].
  unfold ChatDialogView.click, ChatDialogView.available. js_unfold. cbn.
  rewrite Hmin, Hrole, Hshown, Hidle, Hfour.
  rewrite (bool_decide_eq_true_2 _ Hindex). cbn. rewrite Hq.
  unfold ChatDialog.handlePresetClick, ChatDialog.onSendMessage.
  js_unfold. rewrite E, Hc. cbn.
  split; [reflexivity|]. split; [reflexivity|]. split; [exact Hrole|].
  split; [exact Hreq | exact Hm].
Qed.

Lemma quick_reply_sends_the_question_witness :
  let d := {| ChatDialog.role := Some ChatDialog.student;
              ChatDialog.isMinimized := false;
              ChatDialog.showQuickReplies := true |} in
  List.length (ChatDialogView.quickReplies d) = 4%nat.
Proof.
  intros d.
  apply (quick_reply_sends_the_question d ChatDialog.student 3
           (initial (fun _ _ => true) 0));
    solve [reflexivity | vm_compute; lia].
Defined.
